(** * minibook: booklet imposition of a PDF, verified over a shallow embedding

    The program under study is [minibook.py]: it pads a document to a
    multiple of eight pages, stitches the pages two by two into half-height
    spreads, and stitches the spreads two by two into full-size sheets, the
    lower spread turned by a half turn.

    Python objects are modelled as addresses into a heap of page objects, so
    that aliasing and in-place mutation ([add_transformation]) are visible.
    Python integers are [Z]; page dimensions, which the program only ever
    halves, are rationals [Q], and so are the entries of the matrices: the
    program computes them without rounding, the sine of the half turn
    apart, which is kept as the double the library computes. *)

From Stdlib Require Import ZArith QArith Qround Lia Lqa String.

From stdpp Require Import base option list.

Local Open Scope Z_scope.

(** [lia] also decides goals with division and remainder by a constant. *)
Ltac Zify.zify_post_hook ::= Z.to_euclidean_division_equations.

(** * Geometry: the transformation matrices of the PDF library *)

Module Geometry.

(** A transformation is the compressed matrix [(a, b, c, d, e, f)] standing
    for the rows [(a b 0) (c d 0) (e f 1)]; a point is a row vector. *)
Record Transformation : Type := mkT {
  ta : Q; tb : Q; tc : Q; td : Q; te : Q; tf : Q
}.

(** [Transformation()] *)
Definition identity : Transformation := mkT 1 0 0 1 0 0.

(** The product [self.matrix * m] of two such matrices, compressed again. *)
Definition matrix_multiply (m n : Transformation) : Transformation :=
  mkT (ta m * ta n + tb m * tc n)%Q
      (ta m * tb n + tb m * td n)%Q
      (tc m * ta n + td m * tc n)%Q
      (tc m * tb n + td m * td n)%Q
      (te m * ta n + tf m * tc n + te n)%Q
      (te m * tb n + tf m * td n + tf n)%Q.

(** [t.scale(sx, sy)]: [t] followed by the scaling. *)
Definition scale (t : Transformation) (sx sy : Q) : Transformation :=
  matrix_multiply t (mkT sx 0 0 sy 0 0).

(** [t.translate(tx, ty)]: [t] followed by the translation. *)
Definition translate (t : Transformation) (tx ty : Q) : Transformation :=
  mkT (ta t) (tb t) (tc t) (td t) (te t + tx)%Q (tf t + ty)%Q.

(** A rotation given by its cosine and sine: [t] followed by the rotation. *)
Definition rotate_by (t : Transformation) (c s : Q) : Transformation :=
  matrix_multiply t (mkT c s (- s) c 0 0).

(** The sine of the half turn as the library computes it:
    [math.sin(math.radians(180))] is not 0 but the double
    [0x1.1a62633145c07p-53], about [1.2246e-16], because the double nearest
    to pi lies just below pi.  The cosine is the double [-1.0]. *)
Definition sin_pi : Q := 4967757600021511 # 40564819207303340847894502572032.

Definition cos_pi : Q := -1.

(** [t.rotate(180)] *)
Definition rotate_180 (t : Transformation) : Transformation :=
  rotate_by t cos_pi sin_pi.

(** [t.apply_on(pt)] *)
Definition apply_on (t : Transformation) (pt : Q * Q) : Q * Q :=
  (fst pt * ta t + snd pt * tc t + te t,
   fst pt * tb t + snd pt * td t + tf t)%Q.

(** Two points are the same when their coordinates are equal rationals. *)
Definition pt_eq (p q : Q * Q) : Prop := (fst p == fst q)%Q /\ (snd p == snd q)%Q.

(** Two transformations are the same when their entries are equal rationals. *)
Definition ctm_eq (t u : Transformation) : Prop :=
  (ta t == ta u /\ tb t == tb u /\ tc t == tc u /\
   td t == td u /\ te t == te u /\ tf t == tf u)%Q.

End Geometry.

Export Geometry.

(** * Page objects, the heap and the library

    The PDF library is not part of the program: its operations are given by
    what they do to the page objects, and every page operation is recorded. *)

(** What a page draws.  The content stream of an input page is opaque; a
    content may be drawn under a transformation, clipped to a rectangle
    [(0, 0, w, h)], or over another content. *)
Inductive Content : Type :=
| Empty
| Source (stream : nat)
| Transformed (ctm : Transformation) (c : Content)
| Clipped (w h : Q) (c : Content)
| Merged (under over : Content).

(** A page object: the width and height of its crop box, which is taken to
    start at the origin, and its content. *)
Record PageObject : Type := mkPage {
  width : Q;
  height : Q;
  contents : Content
}.

(** A Python reference to a page object. *)
Abbreviation addr := nat (only parsing).

(** The page operations the program asks of the PDF library, in program
    order: the calls that create a page object, draw on one, change one in
    place or hand one to the writer.  Building a reader, a writer or a
    transformation matrix is not recorded here. *)
Inductive Call : Type :=
| CreateBlank (page : addr) (w h : Q)
| MergeTransformed (canvas page2 : addr) (ctm : Transformation)
| AddTransformation (page : addr) (ctm : Transformation)
| MergePage (canvas page2 : addr)
| AddPage (page : addr).

(** The messages written to the standard error stream. *)
Inductive Message : Type :=
| MsgReading (infile : string)
| MsgAlreadyMultiple (nump : Z)
| MsgPadding (nump padding_needed target_nump : Z)
| MsgDetectedSize (w h : Q)
| MsgSpreadSize (w h : Q)
| MsgPhase1
| MsgSpreadOdd (i back front : Z)
| MsgSpreadEven (i front back : Z)
| MsgPhase2
| MsgFinalSheet (j top bottom : Z)
| MsgStdout
| MsgWriting (path : string)
| MsgComplete
| ErrNamedInput
| ErrNotFound (infile : string)
| ErrReading
| ErrNoPages
| ErrWriting.

Record State : Type := mkState {
  heap : list PageObject;
  calls : list Call;
  stderr : list Message
}.

Inductive Exception : Type :=
| IndexError
| DanglingReference
| PdfReadError
| OSError.

(** How a computation ends: normally, by [sys.exit], or by an exception. *)
Inductive Outcome (A : Type) : Type :=
| Return (a : A) (s : State)
| Exit (code : Z) (s : State)
| Raise (e : Exception) (s : State).

Arguments Return {A} a s.

Arguments Exit {A} code s.

Arguments Raise {A} e s.

(** A computation reads and changes the state and ends in an outcome. *)
Definition M (A : Type) : Type := State -> Outcome A.

#[global] Instance M_ret : MRet M := fun A a s => Return a s.

#[global] Instance M_bind : MBind M := fun A B f m s =>
  match m s with
  | Return a s' => f a s'
  | Exit c s' => Exit c s'
  | Raise e s' => Raise e s'
  end.

Definition ret {A} (a : A) : M A := mret a.

(** [sys.exit(code)] and [raise]: the rest of the computation is skipped. *)
Definition sys_exit {A} (code : Z) : M A := fun s => Exit code s.

Definition raise {A} (e : Exception) : M A := fun s => Raise e s.

(** ** Python lists and loops *)

(** [len(l)] *)
Definition len {A} (l : list A) : Z := Z.of_nat (length l).

(** [l[i]]: a negative index counts from the end; out of range is an error. *)
Definition getitem {A} (l : list A) (i : Z) : option A :=
  if 0 <=? i then l !! Z.to_nat i
  else if - len l <=? i then l !! Z.to_nat (len l + i)
  else None.

(** The same as a computation: [IndexError] when out of range. *)
Definition index {A} (l : list A) (i : Z) : M A :=
  match getitem l i with
  | Some x => ret x
  | None => raise IndexError
  end.

(** [range(lo, hi)] *)
Definition range (lo hi : Z) : list Z :=
  (fun k : nat => lo + Z.of_nat k) <$> seq 0 (Z.to_nat (hi - lo)).

(** [for x in xs: acc = body(x, acc)] *)
Fixpoint for_loop {A} (xs : list Z) (body : Z -> A -> M A) (acc : A) : M A :=
  match xs with
  | [] => ret acc
  | x :: xs' => acc' ← body x acc; for_loop xs' body acc'
  end.

(** ** The PDF library on the heap *)

(** The primitive steps: record a call, write a message, create an object,
    read an object, replace an object. *)
Definition log_call (c : Call) : M unit :=
  fun s => Return tt (mkState (heap s) (calls s ++ [c]) (stderr s)).

Definition write_stderr (m : Message) : M unit :=
  fun s => Return tt (mkState (heap s) (calls s) (stderr s ++ [m])).

Definition alloc (p : PageObject) : M addr :=
  fun s => Return (length (heap s)) (mkState (heap s ++ [p]) (calls s) (stderr s)).

Definition load (a : addr) : M PageObject :=
  fun s => match heap s !! a with
           | Some p => Return p s
           | None => Raise DanglingReference s
           end.

Definition store (a : addr) (p : PageObject) : M unit :=
  fun s => Return tt (mkState (<[a := p]> (heap s)) (calls s) (stderr s)).

(** [PageObject.create_blank_page(width=w, height=h)] *)
Definition PageObject_create_blank_page (w h : Q) : M addr :=
  a ← alloc (mkPage w h Empty);
  log_call (CreateBlank a w h);;
  ret a.

(** What a merge draws of [page2]: its content, as it is now, clipped to its
    own crop box. *)
Definition clipped (page2 : PageObject) : Content :=
  Clipped (width page2) (height page2) (contents page2).

(** [canvas.merge_transformed_page(page2, ctm)]: the clipped content of
    [page2] is drawn over the canvas under [ctm]; the boxes of the canvas stay
    as they are and [page2] is only read. *)
Definition merge_transformed_page (canvas page2 : addr) (ctm : Transformation) : M unit :=
  c ← load canvas;
  p ← load page2;
  store canvas (mkPage (width c) (height c)
                       (Merged (contents c) (Transformed ctm (clipped p))));;
  log_call (MergeTransformed canvas page2 ctm).

(** [page.add_transformation(ctm)]: the page's own content is replaced; its
    boxes stay as they are. *)
Definition add_transformation (page : addr) (ctm : Transformation) : M unit :=
  p ← load page;
  store page (mkPage (width p) (height p) (Transformed ctm (contents p)));;
  log_call (AddTransformation page ctm).

(** [canvas.merge_page(page2)] *)
Definition merge_page (canvas page2 : addr) : M unit :=
  c ← load canvas;
  p ← load page2;
  store canvas (mkPage (width c) (height c) (Merged (contents c) (clipped p)));;
  log_call (MergePage canvas page2).

(** [writer.add_page(page)]: the writer keeps a copy of the page. *)
Definition add_page (writer : list PageObject) (page : addr) : M (list PageObject) :=
  p ← load page;
  log_call (AddPage page);;
  ret (writer ++ [p]).

(** * The program *)

Record Args : Type := mkArgs {
  infile : option string;
  outfile : option string;
  v : bool;
  vv : bool
}.

(** [status(args, message)] *)
Definition status (args : Args) (message : Message) : M unit :=
  if v args || vv args then write_stderr message else ret tt.

(** [debug(args, message)] *)
Definition debug (args : Args) (message : Message) : M unit :=
  if vv args then write_stderr message else ret tt.

(** [create_blank_page(width, height)] *)
Definition create_blank_page (w h : Q) : M addr :=
  blank ← PageObject_create_blank_page w h;
  ret blank.

(** [ceil(nump / 8)]: true division, then the ceiling.  The quotient of a
    page count by 8 is exact in binary floating point for every count below
    2^53, far above what a list can hold. *)
Definition ceil_div8 (nump : Z) : Z := Qceiling (inject_Z nump / 8).

(** [target_nump] and [padding_needed], the locals of [pad_pages]. *)
Definition target_nump (nump : Z) : Z := 8 * ceil_div8 nump.

Definition padding_needed (nump : Z) : Z := target_nump nump - nump.

(** One turn of the padding loop: [blank_pages.append(create_blank_page(..))]. *)
Definition blank_body (final_width final_height : Q) (_ : Z)
    (blank_pages : list addr) : M (list addr) :=
  b ← create_blank_page final_width final_height;
  ret (blank_pages ++ [b]).

(** [pad_pages(reader, final_width, final_height, args)]; the reader is
    given by the list of its pages. *)
Definition pad_pages (reader_pages : list addr) (final_width final_height : Q)
    (args : Args) : M (list addr) :=
  let original_pages := reader_pages in
  let nump := len original_pages in
  if nump mod 8 =? 0 then
    debug args (MsgAlreadyMultiple nump);;
    ret original_pages
  else
    status args (MsgPadding nump (padding_needed nump) (target_nump nump));;
    blank_pages ←
      for_loop (range 0 (padding_needed nump))
        (blank_body final_width final_height) [];
    ret (original_pages ++ blank_pages).

(** [Transformation().scale(0.5, 0.5)] *)
Definition scale_transform : Transformation := scale identity (1 # 2) (1 # 2).

(** One turn of the loop of phase 1: the spread of index [i]. *)
Definition spread_body (args : Args) (pages : list addr) (nump : Z)
    (SPREAD_WIDTH SPREAD_HEIGHT : Q) (i : Z) (spread_pages : list addr)
    : M (list addr) :=
  let front_page_idx := i - 1 in
  let back_page_idx := nump - i in
  P_Front ← index pages front_page_idx;
  P_Back ← index pages back_page_idx;
  spread_canvas ← create_blank_page SPREAD_WIDTH SPREAD_HEIGHT;
  let right_page_tx := (SPREAD_WIDTH / 2)%Q in
  '(P_L, P_R) ←
    (if negb (i mod 2 =? 0) then
       debug args (MsgSpreadOdd i (back_page_idx + 1) (front_page_idx + 1));;
       ret (P_Back, P_Front)
     else
       debug args (MsgSpreadEven i (front_page_idx + 1) (back_page_idx + 1));;
       ret (P_Front, P_Back));
  let transform_L := translate scale_transform 0 0 in
  merge_transformed_page spread_canvas P_L transform_L;;
  let transform_R := translate scale_transform right_page_tx 0 in
  merge_transformed_page spread_canvas P_R transform_R;;
  ret (spread_pages ++ [spread_canvas]).

(** Phase 1: [for i in range(1, num_spreads + 1)]. *)
Definition spread_phase (args : Args) (pages : list addr) (nump num_spreads : Z)
    (SPREAD_WIDTH SPREAD_HEIGHT : Q) : M (list addr) :=
  status args MsgPhase1;;
  for_loop (range 1 (num_spreads + 1))
    (spread_body args pages nump SPREAD_WIDTH SPREAD_HEIGHT) [].

(** One turn of the loop of phase 2: the final sheet of index [j]. *)
Definition sheet_body (args : Args) (spread_pages : list addr) (num_spreads : Z)
    (FINAL_WIDTH FINAL_HEIGHT SPREAD_WIDTH SPREAD_HEIGHT : Q)
    (j : Z) (final_writer : list PageObject) : M (list PageObject) :=
  let top_spread_idx := j in
  let bottom_spread_idx := num_spreads - j - 1 in
  S_Top ← index spread_pages top_spread_idx;
  S_Bottom ← index spread_pages bottom_spread_idx;
  final_canvas ← create_blank_page FINAL_WIDTH FINAL_HEIGHT;
  let translate_top := translate identity 0 SPREAD_HEIGHT in
  merge_transformed_page final_canvas S_Top translate_top;;
  let rotate_transform := rotate_180 identity in
  add_transformation S_Bottom rotate_transform;;
  let translate_transform := translate identity SPREAD_WIDTH SPREAD_HEIGHT in
  add_transformation S_Bottom translate_transform;;
  merge_page final_canvas S_Bottom;;
  debug args (MsgFinalSheet (j + 1) (top_spread_idx + 1) (bottom_spread_idx + 1));;
  add_page final_writer final_canvas.

(** Phase 2: [for j in range(num_final_sheets)]. *)
Definition sheet_phase (args : Args) (spread_pages : list addr)
    (num_spreads num_final_sheets : Z)
    (FINAL_WIDTH FINAL_HEIGHT SPREAD_WIDTH SPREAD_HEIGHT : Q)
    : M (list PageObject) :=
  status args MsgPhase2;;
  for_loop (range 0 num_final_sheets)
    (sheet_body args spread_pages num_spreads
       FINAL_WIDTH FINAL_HEIGHT SPREAD_WIDTH SPREAD_HEIGHT) [].

(** Sections 2 to 5 of [run_minibook], from the reader's pages to the pages
    held by the writer. *)
Definition impose (args : Args) (reader_pages : list addr) : M (list PageObject) :=
  first_page ← index reader_pages 0;
  first_page_box ← load first_page;
  let FINAL_WIDTH := width first_page_box in
  let FINAL_HEIGHT := height first_page_box in
  let SPREAD_WIDTH := FINAL_WIDTH in
  let SPREAD_HEIGHT := (FINAL_HEIGHT / 2)%Q in
  debug args (MsgDetectedSize FINAL_WIDTH FINAL_HEIGHT);;
  debug args (MsgSpreadSize SPREAD_WIDTH SPREAD_HEIGHT);;
  pages ← pad_pages reader_pages FINAL_WIDTH FINAL_HEIGHT args;
  let nump := len pages in
  let num_spreads := nump / 2 in
  let num_final_sheets := nump / 4 in
  spread_pages ← spread_phase args pages nump num_spreads SPREAD_WIDTH SPREAD_HEIGHT;
  sheet_phase args spread_pages num_spreads num_final_sheets
    FINAL_WIDTH FINAL_HEIGHT SPREAD_WIDTH SPREAD_HEIGHT.

(** What [PdfReader(path)] returns when it does not raise: a reader whose
    pages can be listed, or one whose [pages] raise when they are asked for,
    as those of an encrypted file do. *)
Inductive Reader : Type :=
| Listed (doc : list PageObject)
| Unlisted.

(** The file system and the PDF reader, as far as the program calls them:
    [PdfReader] gives [None] when the constructor raises. *)
Record Env : Type := mkEnv {
  path_exists : string -> bool;
  PdfReader : string -> option Reader;
  splitext : string -> string;
  open_wb : string -> bool
}.

Inductive Destination : Type :=
| Stdout
| File (path : string).

(** The page objects of a document just read enter the heap, in order. *)
Definition open_reader (doc : list PageObject) : M (list addr) :=
  fun s => Return (seq (length (heap s)) (length doc))
                  (mkState (heap s ++ doc) (calls s) (stderr s)).

(** [reader.pages], when it is first asked for: outside every [try]. *)
Definition Reader_pages (reader : Reader) : M (list addr) :=
  match reader with
  | Listed doc => open_reader doc
  | Unlisted => raise PdfReadError
  end.

(** [run_minibook(args)].  The value returned stands for what is written:
    where, and the pages the writer holds at that moment. *)
Definition run_minibook (env : Env) (args : Args)
    : M (Destination * list PageObject) :=
  match infile args with
  | None => write_stderr ErrNamedInput;; sys_exit 1
  | Some infile =>
    if String.eqb infile "-" then write_stderr ErrNamedInput;; sys_exit 1
    else if negb (path_exists env infile) then
      write_stderr (ErrNotFound infile);; sys_exit 1
    else
      status args (MsgReading infile);;
      match PdfReader env infile with
      | None => write_stderr ErrReading;; sys_exit 1
      | Some reader =>
        reader_pages ← Reader_pages reader;
        let nump_original := len reader_pages in
        if nump_original =? 0 then write_stderr ErrNoPages;; sys_exit 1
        else
          final_writer ← impose args reader_pages;
          let outfile_path :=
            match outfile args with
            | Some o => if String.eqb o "" then "-"%string else o
            | None => "-"%string
            end in
          out ←
            (if String.eqb outfile_path "-" then
               status args MsgStdout;;
               ret (Stdout, final_writer)
             else
               let basename := splitext env infile in
               let outfile_path :=
                 match outfile args with
                 | None => (basename ++ ".minibook.pdf")%string
                 | Some _ => outfile_path
                 end in
               status args (MsgWriting outfile_path);;
               if open_wb env outfile_path then ret (File outfile_path, final_writer)
               else write_stderr ErrWriting;; raise OSError);
          status args MsgComplete;;
          ret out
      end
  end.

Definition initial_state : State := mkState [] [] [].

(** * What the program computes, in closed form

    The definitions below describe the results of the loops as functions of
    the heap the loops start from; the lemmas that follow prove that the
    program computes them. *)

(** ** States and objects *)

Definition say (ms : list Message) (s : State) : State :=
  mkState (heap s) (calls s) (stderr s ++ ms).

(** The state after [n] blank pages of size [(w, h)] have been created. *)
Definition with_blanks (w h : Q) (n : nat) (s : State) : State :=
  mkState (heap s ++ replicate n (mkPage w h Empty))
          (calls s ++ ((fun a => CreateBlank a w h) <$> seq (length (heap s)) n))
          (stderr s).

Definition pad_step (w h : Q) (_ : Z) (p : list addr * State) : list addr * State :=
  (p.1 ++ [length (heap p.2)], with_blanks w h 1 p.2).

(** The messages [pad_pages] writes for a document of [nump] pages. *)
Definition pad_messages (args : Args) (nump : Z) : list Message :=
  if nump mod 8 =? 0 then
    if vv args then [MsgAlreadyMultiple nump] else []
  else
    if v args || vv args
    then [MsgPadding nump (padding_needed nump) (target_nump nump)] else [].

(** The number of blank pages [pad_pages] appends. *)
Definition blanks_for (nump : Z) : nat :=
  Z.to_nat (if nump mod 8 =? 0 then 0 else padding_needed nump).

(** The element of a list at an index known to be in range, and the object at
    an address known to be allocated. *)
Definition item (l : list addr) (i : Z) : addr := default 0%nat (getitem l i).

Definition object (h : list PageObject) (a : addr) : PageObject :=
  default (mkPage 0 0 Empty) (h !! a).

(** The canvas [c] after [p] was merged onto it, under [ctm] if there is one,
    and the page [p] after [ctm] was applied to it in place. *)
Definition merged_under (ctm : option Transformation) (c p : PageObject) : PageObject :=
  mkPage (width c) (height c)
         (Merged (contents c)
                 (match ctm with
                  | Some t => Transformed t (clipped p)
                  | None => clipped p
                  end)).

Definition transformed (ctm : Transformation) (p : PageObject) : PageObject :=
  mkPage (width p) (height p) (Transformed ctm (contents p)).

(** ** Phase 1: the spreads *)

Section SpreadResults.
Variable args : Args.
Variable pages : list addr.
Variables sw sh : Q.

Let nump : Z := len pages.

(** The pages of the left and right slots of spread [i]. *)
Definition front_of (i : Z) : addr := item pages (i - 1).

Definition back_of (i : Z) : addr := item pages (nump - i).

Definition left_of (i : Z) : addr :=
  if negb (i mod 2 =? 0) then back_of i else front_of i.

Definition right_of (i : Z) : addr :=
  if negb (i mod 2 =? 0) then front_of i else back_of i.

Definition transform_L : Transformation := translate scale_transform 0 0.

Definition transform_R : Transformation := translate scale_transform (sw / 2) 0.

(** Spread [i], as built from the page objects of the heap [h]. *)
Definition spread_object (h : list PageObject) (i : Z) : PageObject :=
  merged_under (Some transform_R)
    (merged_under (Some transform_L) (mkPage sw sh Empty) (object h (left_of i)))
    (object h (right_of i)).

Definition spread_calls (canvas : addr) (i : Z) : list Call :=
  [CreateBlank canvas sw sh;
   MergeTransformed canvas (left_of i) transform_L;
   MergeTransformed canvas (right_of i) transform_R].

Definition spread_messages (i : Z) : list Message :=
  if vv args then
    [if negb (i mod 2 =? 0) then MsgSpreadOdd i (nump - i + 1) (i - 1 + 1)
     else MsgSpreadEven i (i - 1 + 1) (nump - i + 1)]
  else [].

Definition spread_step (i : Z) (p : list addr * State) : list addr * State :=
  let canvas := length (heap p.2) in
  (p.1 ++ [canvas],
   mkState (heap p.2 ++ [spread_object (heap p.2) i])
           (calls p.2 ++ spread_calls canvas i)
           (stderr p.2 ++ spread_messages i)).

(** The indices of the spreads, and the state phase 1 ends in. *)
Definition spread_indices : list Z := range 1 (nump / 2 + 1).

Definition spreads_built (h0 : list PageObject) (xs : list Z) (s : State) : State :=
  mkState (heap s ++ (spread_object h0 <$> xs))
          (calls s ++ concat (zip_with spread_calls (seq (length (heap s)) (length xs)) xs))
          (stderr s ++ concat (spread_messages <$> xs)).

End SpreadResults.

(** ** Phase 2: the sheets *)

Section SheetResults.
Variable args : Args.
Variable spread_pages : list addr.
Variables fw fh sw sh : Q.

Let num_spreads : Z := len spread_pages.

Definition top_of (j : Z) : addr := item spread_pages j.

Definition bottom_of (j : Z) : addr := item spread_pages (num_spreads - j - 1).

Definition translate_top : Transformation := translate identity 0 sh.

Definition rotate_transform : Transformation := rotate_180 identity.

Definition translate_transform : Transformation := translate identity sw sh.

(** A spread after the two transformations applied to it in place. *)
Definition turned (p : PageObject) : PageObject :=
  transformed translate_transform (transformed rotate_transform p).

(** Sheet [j], as built from the spread objects of the heap [h]. *)
Definition sheet_object (h : list PageObject) (j : Z) : PageObject :=
  merged_under None
    (merged_under (Some translate_top) (mkPage fw fh Empty) (object h (top_of j)))
    (turned (object h (bottom_of j))).

Definition sheet_calls (canvas : addr) (j : Z) : list Call :=
  [CreateBlank canvas fw fh;
   MergeTransformed canvas (top_of j) translate_top;
   AddTransformation (bottom_of j) rotate_transform;
   AddTransformation (bottom_of j) translate_transform;
   MergePage canvas (bottom_of j);
   AddPage canvas].

Definition sheet_messages (j : Z) : list Message :=
  if vv args then [MsgFinalSheet (j + 1) (j + 1) (num_spreads - j - 1 + 1)] else [].

Definition sheet_step (j : Z) (p : list PageObject * State) : list PageObject * State :=
  let h := heap p.2 in
  (p.1 ++ [sheet_object h j],
   mkState (<[bottom_of j := turned (object h (bottom_of j))]> h ++ [sheet_object h j])
           (calls p.2 ++ sheet_calls (length h) j)
           (stderr p.2 ++ sheet_messages j)).

(** The heap after the bottom spreads of the sheets [js] were turned in place:
    each holds the turned form of what it held in [h0]. *)
Definition turn_bottoms (h0 : list PageObject) (js : list Z) (h : list PageObject)
    : list PageObject :=
  foldl (fun h j => <[bottom_of j := turned (object h0 (bottom_of j))]> h) h js.

Definition sheets_built (h0 : list PageObject) (js : list Z)
    (hb ext : list PageObject) (s : State) : State :=
  mkState (turn_bottoms h0 js hb ++ ext ++ (sheet_object h0 <$> js))
          (calls s ++ concat (zip_with sheet_calls (seq (length (heap s)) (length js)) js))
          (stderr s ++ concat (sheet_messages <$> js)).

(** The sheets of [js] do not interfere: no bottom spread of one is a spread
    of another. *)
Definition separate (js : list Z) : Prop :=
  forall j j', j ∈ js -> j' ∈ js -> j <> j' ->
    bottom_of j <> top_of j' /\ bottom_of j <> bottom_of j'.

End SheetResults.

(** ** The two builders in sequence *)

Section BuilderResults.
Variable pages : list addr.
Variable h : list PageObject.
Variables W H : Q.

(** The spreads and the heap after phase 1, run on the deck [pages] from
    the heap [h] with the page size [(W, H)]. *)
Definition spread_list : list addr := seq (length h) (Z.to_nat (len pages / 2)).

Definition spread_heap : list PageObject :=
  h ++ (spread_object pages W (H / 2) h <$> spread_indices pages).

(** The sheets and the heap after phase 2. *)
Definition sheet_indices : list Z := range 0 (len pages / 4).

Definition final_sheets : list PageObject :=
  sheet_object spread_list W H W (H / 2) spread_heap <$> sheet_indices.

Definition final_heap : list PageObject :=
  turn_bottoms spread_list W (H / 2) spread_heap sheet_indices spread_heap
  ++ final_sheets.

(** The calls to the library and the messages, phase by phase. *)
Definition spread_phase_calls : list Call :=
  concat (zip_with (spread_calls pages W (H / 2))
            (seq (length h) (length (spread_indices pages))) (spread_indices pages)).

Definition sheet_phase_calls : list Call :=
  concat (zip_with (sheet_calls spread_list W H W (H / 2))
            (seq (length spread_heap) (length sheet_indices)) sheet_indices).

Definition spread_phase_messages (args : Args) : list Message :=
  (if v args || vv args then [MsgPhase1] else [])
  ++ concat (spread_messages args pages <$> spread_indices pages).

Definition sheet_phase_messages (args : Args) : list Message :=
  (if v args || vv args then [MsgPhase2] else [])
  ++ concat (sheet_messages args spread_list <$> sheet_indices).

Definition with_spreads (args : Args) (s : State) : State :=
  mkState spread_heap (calls s ++ spread_phase_calls)
          (stderr s ++ spread_phase_messages args).

Definition with_sheets (args : Args) (s : State) : State :=
  mkState final_heap (calls s ++ spread_phase_calls ++ sheet_phase_calls)
          (stderr s ++ spread_phase_messages args ++ sheet_phase_messages args).

End BuilderResults.

(** ** The whole imposition *)

Section ImpositionResults.
Variable reader_pages : list addr.
Variable h : list PageObject.

(** The first page and the sizes taken from it. *)
Definition first_page_box : PageObject := object h (item reader_pages 0).

Definition FINAL_WIDTH : Q := width first_page_box.

Definition FINAL_HEIGHT : Q := height first_page_box.

(** The padded deck and the heap after padding. *)
Definition padded_deck : list addr :=
  reader_pages ++ seq (length h) (blanks_for (len reader_pages)).

Definition padded_heap : list PageObject :=
  h ++ replicate (blanks_for (len reader_pages)) (mkPage FINAL_WIDTH FINAL_HEIGHT Empty).

Definition padding_calls : list Call :=
  (fun a => CreateBlank a FINAL_WIDTH FINAL_HEIGHT)
    <$> seq (length h) (blanks_for (len reader_pages)).

Definition size_messages (args : Args) : list Message :=
  (if vv args then [MsgDetectedSize FINAL_WIDTH FINAL_HEIGHT] else [])
  ++ (if vv args then [MsgSpreadSize FINAL_WIDTH (FINAL_HEIGHT / 2)] else []).

(** The state once the deck is padded, and the state [impose] ends in. *)
Definition padded (args : Args) (s : State) : State :=
  mkState padded_heap (calls s ++ padding_calls)
          (stderr s ++ size_messages args ++ pad_messages args (len reader_pages)).

Definition imposed_sheets : list PageObject :=
  final_sheets padded_deck padded_heap FINAL_WIDTH FINAL_HEIGHT.

Definition imposed (args : Args) (s : State) : State :=
  with_sheets padded_deck padded_heap FINAL_WIDTH FINAL_HEIGHT args (padded args s).

End ImpositionResults.

(** ** The driver *)

(** Where the output goes: [args.outfile or '-'], and ['-'] is the standard
    output. *)
Definition outfile_path (args : Args) : string :=
  match outfile args with
  | Some o => if String.eqb o "" then "-"%string else o
  | None => "-"%string
  end.

Definition destination (args : Args) : Destination :=
  if String.eqb (outfile_path args) "-" then Stdout else File (outfile_path args).

Definition writable (env : Env) (args : Args) : bool :=
  match destination args with
  | Stdout => true
  | File path => open_wb env path
  end.

(** The input can be read: it is a named file that exists and parses. *)
Definition reads (env : Env) (args : Args) (doc : list PageObject) : Prop :=
  exists f, infile args = Some f /\ f <> "-"%string /\
            path_exists env f = true /\ PdfReader env f = Some (Listed doc).

(** The reader is built, but its pages cannot be listed. *)
Definition unlisted (env : Env) (args : Args) : Prop :=
  exists f, infile args = Some f /\ f <> "-"%string /\
            path_exists env f = true /\ PdfReader env f = Some Unlisted.

(** The imposition of a document: the sheets, the heap and the calls of a run
    that starts from the empty heap. *)
Definition document_pages (doc : list PageObject) : list addr := seq 0 (length doc).

Definition imposition (doc : list PageObject) : list PageObject :=
  imposed_sheets (document_pages doc) doc.

Definition read_state (args : Args) (f : string) (doc : list PageObject) : State :=
  mkState doc [] (if v args || vv args then [MsgReading f] else []).

(** ** Reading the calls *)

(** The pages a list of calls draws onto a canvas, in order. *)
Definition merge_sources (cs : list Call) : list addr :=
  cs ≫= fun c =>
    match c with
    | MergeTransformed _ page2 _ | MergePage _ page2 => [page2]
    | _ => []
    end.

(** The pages the calls hand to the writer, in order. *)
Definition added_pages (cs : list Call) : list addr :=
  cs ≫= fun c => match c with AddPage page => [page] | _ => [] end.

(** ** The specification's words, where they differ from the program *)

(** The translation of the bottom spread in the words of the specification:
    by [(W / 2, H / 2)]. *)
Definition specified_bottom_translation (W H : Q) : Transformation :=
  translate identity (W / 2) (H / 2).

(** A sheet laid out as the specification words it: the top spread moved to
    [(0, H / 2)], the bottom spread turned by a half turn and then moved by
    the specified translation. *)
Definition bottom_as_specified (W H : Q) (sheet : PageObject) : Prop :=
  exists top bottom w h t,
    contents sheet
    = Merged (Merged Empty (Transformed (translate identity 0 (H / 2)) top))
             (Clipped w h (Transformed t (Transformed (rotate_180 identity) bottom))) /\
    ctm_eq t (specified_bottom_translation W H).

(** A computation fails when it ends by [sys.exit] or by an exception. *)
Definition fails {A} (o : Outcome A) : Prop :=
  match o with
  | Return _ _ => False
  | Exit _ _ | Raise _ _ => True
  end.

(** ** Sample documents and runs *)

(** A document of [n] pages of US Letter size, page [k] drawing stream [k]. *)
Definition letter_document (n : nat) : list PageObject :=
  (fun k => mkPage 612 792 (Source k)) <$> seq 0 n.

Definition quiet : Args := mkArgs (Some "in.pdf"%string) (Some "out.pdf"%string) false false.

Definition verbose : Args := mkArgs (Some "in.pdf"%string) None true true.

Definition loaded (doc : list PageObject) : State := mkState doc [] [].

(** An environment in which every path exists, every file holds the document
    [doc] and every output file can be written. *)
Definition env_with (doc : list PageObject) : Env :=
  mkEnv (fun _ => true) (fun _ => Some (Listed doc)) (fun path => path) (fun _ => true).

(** Two documents of three pages with the same first page and the same page
    contents: one with pages of three sizes, one with all pages alike. *)
Definition cover : PageObject := mkPage 612 792 (Source 0).

Definition mixed_rest : list PageObject :=
  [mkPage 100 50 (Source 1); mkPage 595 842 (Source 2)].

Definition plain_rest : list PageObject :=
  [mkPage 612 792 (Source 1); mkPage 612 792 (Source 2)].

(** * The entry point and further readings of a run *)

(** [main()], from the namespace [parser.parse_args()] returns: without an
    output name, and with an input name that is neither empty nor ['-'], the
    output name is derived from the input name; then [run_minibook(args)]. *)
Definition main_defaults (env : Env) (args : Args) : Args :=
  match infile args, outfile args with
  | Some i, None =>
    if negb (String.eqb i "") && negb (String.eqb i "-") then
      let basename := splitext env i in
      mkArgs (infile args) (Some (basename ++ ".minibook.pdf")%string) (v args) (vv args)
    else args
  | _, _ => args
  end.

Definition main (env : Env) (parsed : Args) : M (Destination * list PageObject) :=
  run_minibook env (main_defaults env parsed).

(** The same environment with another [os.path.splitext]. *)
Definition with_splitext (env : Env) (g : string -> string) : Env :=
  mkEnv (path_exists env) (PdfReader env) g (open_wb env).

(** The messages of section 6 of [run_minibook]: where the output goes, then
    the completion, or the error when the output file cannot be written. *)
Definition output_messages (env : Env) (args : Args) : list Message :=
  (if v args || vv args
   then [match destination args with
         | Stdout => MsgStdout
         | File path => MsgWriting path
         end]
   else [])
  ++ (if writable env args
      then if v args || vv args then [MsgComplete] else []
      else [ErrWriting]).

(** The input streams a content draws, in drawing order. *)
Fixpoint sources (c : Content) : list nat :=
  match c with
  | Empty => []
  | Source stream => [stream]
  | Transformed _ c => sources c
  | Clipped _ _ c => sources c
  | Merged under over => sources under ++ sources over
  end.

(** The input streams the pages of a list draw. *)
Definition drawn (pages : list PageObject) : list nat :=
  pages ≫= fun p => sources (contents p).

(** Page [k] of the padded deck of a document whose sheets are of size
    [(W, H)]: the input page, or a blank page of that size. *)
Definition deck_page (W H : Q) (doc : list PageObject) (k : Z) : PageObject :=
  default (mkPage W H Empty) (doc !! Z.to_nat k).

(** The content of a spread with the given left and right pages, and of a
    sheet with the given top and bottom spread contents, as the two phases
    build them for the page size [(W, H)]: every page is clipped to its own
    box, and every spread to the box [(W, H / 2)]. *)
Definition spread_tree (W : Q) (left right : PageObject) : Content :=
  Merged (Merged Empty (Transformed (translate scale_transform 0 0) (clipped left)))
         (Transformed (translate scale_transform (W / 2) 0) (clipped right)).

Definition sheet_tree (W H : Q) (top bottom : Content) : Content :=
  Merged (Merged Empty
            (Transformed (translate identity 0 (H / 2)) (Clipped W (H / 2) top)))
         (Clipped W (H / 2)
            (Transformed (translate identity W (H / 2))
               (Transformed (rotate_180 identity) bottom))).

(** How the input streams of a content reach the page: each stream with the
    product of the transformations on its way, innermost first and [t] last.
    Clipping hides a part of what is drawn and moves nothing. *)
Fixpoint placements (t : Transformation) (c : Content) : list (nat * Transformation) :=
  match c with
  | Empty => []
  | Source stream => [(stream, t)]
  | Transformed u c => placements (matrix_multiply u t) c
  | Clipped _ _ c => placements t c
  | Merged under over => placements t under ++ placements t over
  end.

(** The transformation under which a sheet of size [(W, H)] draws a page:
    that of the page's slot on its spread, then those of the spread on the
    sheet. *)
Definition on_top (H : Q) (slot : Transformation) : Transformation :=
  matrix_multiply slot (matrix_multiply (translate_top (H / 2)) identity).

Definition on_bottom (W H : Q) (slot : Transformation) : Transformation :=
  matrix_multiply slot
    (matrix_multiply rotate_transform
       (matrix_multiply (translate_transform W (H / 2)) identity)).

(** A point lies in the rectangle between two corners, and the same with a
    margin on every side. *)
Definition within (pt low high : Q * Q) : Prop :=
  (fst low <= fst pt <= fst high /\ snd low <= snd pt <= snd high)%Q.

Definition near (margin : Q) (pt low high : Q * Q) : Prop :=
  within pt (fst low - margin, snd low - margin)%Q
            (fst high + margin, snd high + margin)%Q.

(** ** Counting the page operations *)

Inductive Method : Type :=
| create_blank_page_method
| merge_transformed_page_method
| add_transformation_method
| merge_page_method
| add_page_method.

#[global] Instance Method_eq_dec : EqDecision Method.
Proof. solve_decision. Defined.

Definition method_of (c : Call) : Method :=
  match c with
  | CreateBlank _ _ _ => create_blank_page_method
  | MergeTransformed _ _ _ => merge_transformed_page_method
  | AddTransformation _ _ => add_transformation_method
  | MergePage _ _ => merge_page_method
  | AddPage _ => add_page_method
  end.

(** How many times a method was called. *)
Definition calls_to (m : Method) (cs : list Call) : Z :=
  len (filter (fun c => method_of c = m) cs).

(** * Verification *)

(** ** Lists, ranges and loops *)

Section Lists.

Context {A : Type}.

Implicit Types l : list A.

Lemma len_app l1 l2 : len (l1 ++ l2) = len l1 + len l2.
Proof. unfold len. rewrite length_app. lia. Qed.

Lemma getitem_nonneg l i : 0 <= i -> getitem l i = l !! Z.to_nat i.
Proof.
  intros Hi. unfold getitem.
  destruct (Z.leb_spec 0 i); [reflexivity | lia].
Qed.

Lemma getitem_lookup l (k : nat) : getitem l (Z.of_nat k) = l !! k.
Proof. rewrite getitem_nonneg by lia. by rewrite Nat2Z.id. Qed.

Lemma getitem_is_Some l i : 0 <= i < len l -> is_Some (getitem l i).
Proof.
  intros Hi. rewrite getitem_nonneg by lia.
  apply lookup_lt_is_Some. unfold len in Hi. lia.
Qed.

End Lists.

Lemma range_length lo hi : length (range lo hi) = Z.to_nat (hi - lo).
Proof. unfold range. by rewrite length_fmap, length_seq. Qed.

Lemma range_lookup lo hi (k : nat) :
  (k < Z.to_nat (hi - lo))%nat -> range lo hi !! k = Some (lo + Z.of_nat k).
Proof.
  intros Hk. unfold range. rewrite list_lookup_fmap.
  rewrite lookup_seq_lt by done. reflexivity.
Qed.

Lemma elem_of_range lo hi x : x ∈ range lo hi <-> lo <= x < hi.
Proof.
  unfold range. rewrite list_elem_of_fmap. split.
  - intros (k & -> & Hk). apply elem_of_seq in Hk. lia.
  - intros Hx. exists (Z.to_nat (x - lo)). split; [lia |].
    apply elem_of_seq. lia.
Qed.

Lemma range_nat (n : nat) : range 0 (Z.of_nat n) = Z.of_nat <$> seq 0 n.
Proof.
  unfold range. rewrite Z.sub_0_r, Nat2Z.id.
  apply list_fmap_ext. intros _ k _. lia.
Qed.

Lemma range_from_1 (n : nat) : range 1 (Z.of_nat n + 1) = Z.of_nat <$> seq 1 n.
Proof.
  unfold range. replace (Z.of_nat n + 1 - 1) with (Z.of_nat n) by lia.
  rewrite Nat2Z.id, <- (fmap_S_seq 0), <- list_fmap_compose.
  apply list_fmap_ext. intros _ k _. simpl. lia.
Qed.

Lemma bind_run {A B} (m : M A) (f : A -> M B) s a s' :
  m s = Return a s' -> (m ≫= f) s = f a s'.
Proof. intros H. unfold mbind, M_bind. by rewrite H. Qed.

(** A loop whose body acts as a pure step on the pair of the accumulator and
    the state is the left fold of that step, as long as an invariant holds. *)
Lemma for_loop_fold {A} (body : Z -> A -> M A)
    (step : Z -> A * State -> A * State) (Inv : A * State -> Prop) xs :
  (forall x p, x ∈ xs -> Inv p ->
     body x p.1 p.2 = Return (step x p).1 (step x p).2 /\ Inv (step x p)) ->
  forall p, Inv p ->
    for_loop xs body p.1 p.2
      = Return (foldl (flip step) p xs).1 (foldl (flip step) p xs).2
    /\ Inv (foldl (flip step) p xs).
Proof.
  induction xs as [| x xs IH]; intros Hbody p Hp.
  - by split.
  - destruct (Hbody x p) as [Hx HInv]; [left | done |].
    simpl. unfold mbind, M_bind. rewrite Hx.
    apply IH; [| done].
    intros y q Hy. apply Hbody. by right.
Qed.

Lemma len_nonneg {A} (l : list A) : 0 <= len l.
Proof. unfold len. lia. Qed.

Lemma pairs_Permutation {A} (f g : Z -> A) (xs : list Z) :
  Permutation (concat ((fun i => [f i; g i]) <$> xs)) ((f <$> xs) ++ (g <$> xs)).
Proof.
  induction xs as [| x xs IH]; [done |].
  simpl. rewrite IH. constructor.
  by rewrite Permutation_middle.
Qed.

Lemma range_lookup_ge lo hi (k : nat) :
  (Z.to_nat (hi - lo) <= k)%nat -> range lo hi !! k = None.
Proof. intros Hk. apply lookup_ge_None. by rewrite range_length. Qed.

Lemma range_succ n : range 1 (n + 1) = Z.succ <$> range 0 n.
Proof.
  unfold range. rewrite <- list_fmap_compose.
  replace (n + 1 - 1) with (n - 0) by lia.
  apply list_fmap_ext. intros _ k _. simpl. lia.
Qed.

(** ** Padding *)

Lemma ceil_div8_floor nump : ceil_div8 nump = - ((- nump) / 8).
Proof.
  unfold ceil_div8, Qceiling, Qfloor. simpl.
  rewrite Z.mul_1_r. reflexivity.
Qed.

Lemma padding_needed_mod nump : padding_needed nump = (- nump) mod 8.
Proof.
  unfold padding_needed, target_nump. rewrite ceil_div8_floor.
  pose proof (Z.div_mod (- nump) 8). lia.
Qed.

Lemma padding_needed_range nump : 0 <= padding_needed nump < 8.
Proof. rewrite padding_needed_mod. apply Z.mod_pos_bound. lia. Qed.

Lemma padding_needed_multiple nump : (padding_needed nump + nump) mod 8 = 0.
Proof.
  rewrite padding_needed_mod, Zplus_mod_idemp_l.
  by replace (- nump + nump) with 0 by lia.
Qed.

Lemma padding_needed_zero nump : padding_needed nump = 0 <-> nump mod 8 = 0.
Proof.
  rewrite padding_needed_mod.
  pose proof (Z.div_mod (- nump) 8). pose proof (Z.div_mod nump 8).
  pose proof (Z.mod_pos_bound (- nump) 8). pose proof (Z.mod_pos_bound nump 8).
  lia.
Qed.

Lemma create_blank_page_run w h s :
  create_blank_page w h s = Return (length (heap s)) (with_blanks w h 1 s).
Proof. reflexivity. Qed.

Lemma with_blanks_S w h n s :
  with_blanks w h n (with_blanks w h 1 s) = with_blanks w h (S n) s.
Proof.
  unfold with_blanks. simpl. rewrite length_app. simpl.
  rewrite <- !(assoc_L (++)). simpl.
  by rewrite Nat.add_1_r.
Qed.

Lemma pad_step_fold w h xs : forall p,
  foldl (flip (pad_step w h)) p xs
    = (p.1 ++ seq (length (heap p.2)) (length xs), with_blanks w h (length xs) p.2).
Proof.
  induction xs as [| x xs IH]; intros [bl s]; simpl.
  - unfold with_blanks. simpl. rewrite !app_nil_r. by destruct s.
  - rewrite IH. simpl. rewrite with_blanks_S. f_equal.
    rewrite length_app. simpl. rewrite Nat.add_1_r.
    by rewrite <- (assoc_L (++)).
Qed.

Lemma pad_loop_run w h n s :
  for_loop (range 0 n) (blank_body w h) [] s
  = Return (seq (length (heap s)) (Z.to_nat n)) (with_blanks w h (Z.to_nat n) s).
Proof.
  destruct (for_loop_fold (blank_body w h) (pad_step w h) (fun _ => True)
              (range 0 n)) with (p := (@nil addr, s)) as [Hrun _].
  - intros x p _ _. split; [| done].
    unfold blank_body. by rewrite (bind_run _ _ _ _ _ (create_blank_page_run _ _ _)).
  - done.
  - simpl in Hrun. rewrite Hrun, pad_step_fold. simpl.
    rewrite range_length. by rewrite Z.sub_0_r.
Qed.

Lemma say_nil s : say [] s = s.
Proof. destruct s. unfold say. simpl. by rewrite app_nil_r. Qed.

Lemma status_run args m s :
  status args m s = Return tt (say (if v args || vv args then [m] else []) s).
Proof. unfold status. destruct (v args || vv args); [done |]. by rewrite say_nil. Qed.

Lemma debug_run args m s :
  debug args m s = Return tt (say (if vv args then [m] else []) s).
Proof. unfold debug. destruct (vv args); [done |]. by rewrite say_nil. Qed.

Lemma pad_pages_run reader_pages w h args s :
  let n := blanks_for (len reader_pages) in
  pad_pages reader_pages w h args s
  = Return (reader_pages ++ seq (length (heap s)) n)
           (with_blanks w h n (say (pad_messages args (len reader_pages)) s)).
Proof.
  unfold pad_pages, pad_messages, blanks_for.
  destruct (len reader_pages mod 8 =? 0) eqn:Hmod; simpl.
  - rewrite (bind_run _ _ _ _ _ (debug_run _ _ _)).
    unfold with_blanks. simpl. rewrite !app_nil_r. reflexivity.
  - rewrite (bind_run _ _ _ _ _ (status_run _ _ _)).
    rewrite (bind_run _ _ _ _ _ (pad_loop_run _ _ _ _)). reflexivity.
Qed.

(** ** The heap operations, run *)

Lemma getitem_item (l : list addr) i : 0 <= i < len l -> getitem l i = Some (item l i).
Proof. intros Hi. unfold item. by destruct (getitem_is_Some l i Hi) as [a ->]. Qed.

Lemma lookup_object h a : (a < length h)%nat -> h !! a = Some (object h a).
Proof. intros Ha. unfold object. by destruct (lookup_lt_is_Some_2 h a Ha) as [p ->]. Qed.

Lemma object_app_l h ext a : (a < length h)%nat -> object (h ++ ext) a = object h a.
Proof. intros Ha. unfold object. by rewrite lookup_app_l. Qed.

Lemma object_app_r h ext (k : nat) : object (h ++ ext) (length h + k) = object ext k.
Proof. unfold object. by rewrite lookup_app_r, Nat.add_sub' by lia. Qed.

Lemma item_valid (l : list addr) (n : nat) i :
  Forall (fun a => (a < n)%nat) l -> 0 <= i < len l -> (item l i < n)%nat.
Proof.
  intros Hall Hi. pose proof (getitem_item l i Hi) as Hget.
  rewrite getitem_nonneg in Hget by lia.
  eapply Forall_lookup_1 in Hget; [| exact Hall]. done.
Qed.

Lemma item_lookup (l : list addr) (k : nat) :
  (k < length l)%nat -> l !! k = Some (item l (Z.of_nat k)).
Proof.
  intros Hk. rewrite <- getitem_lookup. apply getitem_item. unfold len. lia.
Qed.

Lemma index_run (l : list addr) i s :
  0 <= i < len l -> index l i s = Return (item l i) s.
Proof. intros Hi. unfold index. by rewrite getitem_item. Qed.

Lemma load_run a s :
  (a < length (heap s))%nat -> load a s = Return (object (heap s) a) s.
Proof. intros Ha. unfold load. by rewrite lookup_object. Qed.

Lemma merge_transformed_page_run canvas page2 ctm s :
  (canvas < length (heap s))%nat -> (page2 < length (heap s))%nat ->
  merge_transformed_page canvas page2 ctm s
  = Return tt (mkState
      (<[canvas := merged_under (Some ctm) (object (heap s) canvas) (object (heap s) page2)]>
         (heap s))
      (calls s ++ [MergeTransformed canvas page2 ctm]) (stderr s)).
Proof.
  intros Hc Hp. unfold merge_transformed_page.
  rewrite (bind_run _ _ _ _ _ (load_run _ _ Hc)).
  rewrite (bind_run _ _ _ _ _ (load_run _ _ Hp)).
  reflexivity.
Qed.

Lemma merge_page_run canvas page2 s :
  (canvas < length (heap s))%nat -> (page2 < length (heap s))%nat ->
  merge_page canvas page2 s
  = Return tt (mkState
      (<[canvas := merged_under None (object (heap s) canvas) (object (heap s) page2)]>
         (heap s))
      (calls s ++ [MergePage canvas page2]) (stderr s)).
Proof.
  intros Hc Hp. unfold merge_page.
  rewrite (bind_run _ _ _ _ _ (load_run _ _ Hc)).
  rewrite (bind_run _ _ _ _ _ (load_run _ _ Hp)).
  reflexivity.
Qed.

Lemma add_transformation_run page ctm s :
  (page < length (heap s))%nat ->
  add_transformation page ctm s
  = Return tt (mkState
      (<[page := transformed ctm (object (heap s) page)]> (heap s))
      (calls s ++ [AddTransformation page ctm]) (stderr s)).
Proof.
  intros Hp. unfold add_transformation.
  rewrite (bind_run _ _ _ _ _ (load_run _ _ Hp)).
  reflexivity.
Qed.

Lemma add_page_run writer page s :
  (page < length (heap s))%nat ->
  add_page writer page s
  = Return (writer ++ [object (heap s) page])
           (mkState (heap s) (calls s ++ [AddPage page]) (stderr s)).
Proof.
  intros Hp. unfold add_page.
  rewrite (bind_run _ _ _ _ _ (load_run _ _ Hp)).
  reflexivity.
Qed.

Ltac solve_length := rewrite ?length_insert, ?length_app; simpl; lia.

(** Run the next heap operation of a sequence; its addresses are in range. *)
Ltac run_heap lem :=
  erewrite bind_run
    by (apply lem; simpl; rewrite ?length_insert, ?length_app; simpl; lia).

Lemma insert_last (h : list PageObject) x y : <[length h := y]> (h ++ [x]) = h ++ [y].
Proof. rewrite insert_app_r_alt by lia. by rewrite Nat.sub_diag. Qed.

Lemma object_last (h : list PageObject) x : object (h ++ [x]) (length h) = x.
Proof. unfold object. by rewrite list_lookup_middle. Qed.

Lemma object_insert_eq h a x : (a < length h)%nat -> object (<[a := x]> h) a = x.
Proof. intros Ha. unfold object. by rewrite list_lookup_insert_eq. Qed.

Lemma object_insert_ne h a b x : a <> b -> object (<[a := x]> h) b = object h b.
Proof. intros Hab. unfold object. by rewrite list_lookup_insert_ne. Qed.

Lemma object_end (h : list PageObject) x n : length h = n -> object (h ++ [x]) n = x.
Proof. intros <-. apply object_last. Qed.

Lemma insert_end (h : list PageObject) x y n :
  length h = n -> <[n := y]> (h ++ [x]) = h ++ [y].
Proof. intros <-. apply insert_last. Qed.

(** ** Phase 1: the spreads *)

Section Spreads.
Variable args : Args.
Variable pages : list addr.
Variables sw sh : Q.

Let nump : Z := len pages.

Lemma spread_choice_run {A} (i : Z) (m1 m2 : Message) (x y : A) s :
  (if negb (i mod 2 =? 0) then debug args m1;; ret x else debug args m2;; ret y) s
  = Return (if negb (i mod 2 =? 0) then x else y)
           (say (if vv args then [if negb (i mod 2 =? 0) then m1 else m2] else []) s).
Proof.
  destruct (negb (i mod 2 =? 0));
    by rewrite (bind_run _ _ _ _ _ (debug_run _ _ _)).
Qed.

Lemma spread_body_run i acc s :
  1 <= i <= nump / 2 ->
  Forall (fun a => (a < length (heap s))%nat) pages ->
  spread_body args pages nump sw sh i acc s
  = Return (spread_step args pages sw sh i (acc, s)).1 (spread_step args pages sw sh i (acc, s)).2.
Proof.
  intros Hi Hvalid.
  assert (Hn : 0 <= nump) by (unfold nump, len; lia).
  assert (Hf : 0 <= i - 1 < len pages) by (fold nump; lia).
  assert (Hb : 0 <= nump - i < len pages) by (fold nump; lia).
  pose proof (item_valid _ _ _ Hvalid Hf) as Hfv.
  pose proof (item_valid _ _ _ Hvalid Hb) as Hbv.
  assert (Hl : (left_of pages i < length (heap s))%nat)
    by (unfold left_of, front_of, back_of; by destruct (negb _)).
  assert (Hr : (right_of pages i < length (heap s))%nat)
    by (unfold right_of, front_of, back_of; by destruct (negb _)).
  unfold spread_body.
  rewrite (bind_run _ _ _ _ _ (index_run _ _ _ Hf)).
  rewrite (bind_run _ _ _ _ _ (index_run _ _ _ Hb)).
  rewrite (bind_run _ _ _ _ _ (create_blank_page_run _ _ _)).
  rewrite (bind_run _ _ _ _ _ (spread_choice_run _ _ _ _ _ _)).
  replace (if negb (i mod 2 =? 0)
           then (item pages (nump - i), item pages (i - 1))
           else (item pages (i - 1), item pages (nump - i)))
    with (left_of pages i, right_of pages i)
    by (unfold left_of, right_of, front_of, back_of; by destruct (negb _)).
  run_heap merge_transformed_page_run.
  run_heap merge_transformed_page_run.
  unfold ret, mret, M_ret, spread_object, spread_messages. simpl. f_equal. f_equal.
  - rewrite !insert_last, !object_last.
    rewrite !object_app_l by done. reflexivity.
  - rewrite <- !(assoc_L (++)). reflexivity.
Qed.

Lemma spread_object_app h0 ext i :
  1 <= i <= nump / 2 ->
  Forall (fun a => (a < length h0)%nat) pages ->
  spread_object pages sw sh (h0 ++ ext) i = spread_object pages sw sh h0 i.
Proof.
  intros Hi Hvalid.
  assert (Hn : 0 <= nump) by (unfold nump, len; lia).
  assert (Hf : (front_of pages i < length h0)%nat)
    by (apply item_valid; [done | fold nump; lia]).
  assert (Hb : (back_of pages i < length h0)%nat)
    by (apply item_valid; [done | fold nump; lia]).
  unfold spread_object, left_of, right_of.
  destruct (negb _); by rewrite !object_app_l.
Qed.

Lemma spread_step_fold h0 xs :
  Forall (fun i => 1 <= i <= nump / 2) xs ->
  Forall (fun a => (a < length h0)%nat) pages ->
  forall acc s ext, heap s = h0 ++ ext ->
    foldl (flip (spread_step args pages sw sh)) (acc, s) xs
    = (acc ++ seq (length (heap s)) (length xs), spreads_built args pages sw sh h0 xs s).
Proof.
  intros Hxs Hvalid. induction Hxs as [| x xs Hx Hxs IH]; intros acc s ext Hs.
  - simpl. unfold spreads_built. simpl. rewrite !app_nil_r. by destruct s.
  - simpl. unfold spread_step at 2. simpl.
    erewrite IH by (simpl; rewrite Hs, <- (assoc_L (++)); reflexivity).
    unfold spreads_built. simpl. rewrite !length_app. simpl.
    rewrite Nat.add_1_r, <- !(assoc_L (++)). simpl.
    replace (spread_object pages sw sh (heap s) x) with (spread_object pages sw sh h0 x)
      by (rewrite Hs; symmetry; by apply spread_object_app).
    reflexivity.
Qed.

Lemma spread_loop_run xs acc s :
  Forall (fun i => 1 <= i <= nump / 2) xs ->
  Forall (fun a => (a < length (heap s))%nat) pages ->
  for_loop xs (spread_body args pages nump sw sh) acc s
  = Return (acc ++ seq (length (heap s)) (length xs))
           (spreads_built args pages sw sh (heap s) xs s).
Proof.
  intros Hxs Hvalid.
  destruct (for_loop_fold (spread_body args pages nump sw sh) (spread_step args pages sw sh)
              (fun p => exists ext, heap p.2 = heap s ++ ext) xs)
    with (p := (acc, s)) as [Hrun _].
  - intros x p Hx [ext Hext]. split.
    + destruct p as [acc' s']. apply spread_body_run.
      * rewrite Forall_forall in Hxs. by apply Hxs.
      * simpl in Hext. simpl. rewrite Hext, length_app.
        eapply Forall_impl; [exact Hvalid |]. simpl. intros. lia.
    + exists (ext ++ [spread_object pages sw sh (heap p.2) x]). simpl.
      by rewrite Hext at 1; rewrite <- (assoc_L (++)).
  - exists []. simpl. by rewrite app_nil_r.
  - simpl in Hrun. rewrite Hrun.
    rewrite (spread_step_fold (heap s) xs Hxs Hvalid acc s []) by (by rewrite app_nil_r).
    reflexivity.
Qed.

Lemma spread_phase_run s :
  Forall (fun a => (a < length (heap s))%nat) pages ->
  spread_phase args pages nump (nump / 2) sw sh s
  = Return (seq (length (heap s)) (Z.to_nat (nump / 2)))
           (spreads_built args pages sw sh (heap s) (spread_indices pages)
              (say (if v args || vv args then [MsgPhase1] else []) s)).
Proof.
  intros Hvalid. unfold spread_phase.
  rewrite (bind_run _ _ _ _ _ (status_run _ _ _)).
  rewrite spread_loop_run.
  - simpl. rewrite range_length. do 3 f_equal. lia.
  - apply Forall_forall. intros i Hi. apply elem_of_range in Hi. lia.
  - done.
Qed.

End Spreads.

(** ** Phase 2: the sheets *)

Section Sheets.
Variable args : Args.
Variable spread_pages : list addr.
Variables fw fh sw sh : Q.

Let num_spreads : Z := len spread_pages.

Lemma sheet_body_run j writer s :
  0 <= j < num_spreads ->
  Forall (fun a => (a < length (heap s))%nat) spread_pages ->
  sheet_body args spread_pages num_spreads fw fh sw sh j writer s
  = Return (sheet_step args spread_pages fw fh sw sh j (writer, s)).1
           (sheet_step args spread_pages fw fh sw sh j (writer, s)).2.
Proof.
  intros Hj Hvalid.
  assert (Ht : 0 <= j < len spread_pages) by (fold num_spreads; lia).
  assert (Hb : 0 <= num_spreads - j - 1 < len spread_pages) by (fold num_spreads; lia).
  pose proof (item_valid _ _ _ Hvalid Ht) as Htv.
  pose proof (item_valid _ _ _ Hvalid Hb) as Hbv.
  change (top_of spread_pages j < length (heap s))%nat in Htv.
  change (bottom_of spread_pages j < length (heap s))%nat in Hbv.
  unfold sheet_body.
  rewrite (bind_run _ _ _ _ _ (index_run _ _ _ Ht)).
  rewrite (bind_run _ _ _ _ _ (index_run _ _ _ Hb)).
  change (item spread_pages j) with (top_of spread_pages j).
  change (item spread_pages (num_spreads - j - 1)) with (bottom_of spread_pages j).
  rewrite (bind_run _ _ _ _ _ (create_blank_page_run _ _ _)).
  run_heap merge_transformed_page_run.
  run_heap add_transformation_run.
  run_heap add_transformation_run.
  run_heap merge_page_run.
  rewrite (bind_run _ _ _ _ _ (debug_run _ _ _)).
  rewrite add_page_run
    by (simpl; rewrite ?length_insert, ?length_app; simpl; lia).
  unfold sheet_step, sheet_object, sheet_calls, sheet_messages, turned. simpl.
  rewrite !insert_last, !object_last.
  rewrite !(object_app_l (heap s)) by done.
  rewrite !(insert_app_l _ _ (bottom_of spread_pages j)) by solve_length.
  rewrite !(object_app_l _ _ (bottom_of spread_pages j)) by solve_length.
  rewrite !(object_insert_eq _ (bottom_of spread_pages j)) by solve_length.
  rewrite list_insert_insert_eq.
  rewrite !object_end by solve_length.
  rewrite insert_end by solve_length.
  rewrite object_end by solve_length.
  unfold ret, mret, M_ret. f_equal. f_equal.
  rewrite <- !(assoc_L (++)). reflexivity.
Qed.

Lemma turn_bottoms_cons h0 j js h :
  turn_bottoms spread_pages sw sh h0 (j :: js) h
  = turn_bottoms spread_pages sw sh h0 js
      (<[bottom_of spread_pages j := turned sw sh (object h0 (bottom_of spread_pages j))]> h).
Proof. reflexivity. Qed.

Lemma turn_bottoms_length h0 js : forall h,
  length (turn_bottoms spread_pages sw sh h0 js h) = length h.
Proof.
  induction js as [| j js IH]; intros h; [done |].
  by rewrite turn_bottoms_cons, IH, length_insert.
Qed.

Lemma turn_bottoms_other h0 js a : forall h,
  (forall j, j ∈ js -> bottom_of spread_pages j <> a) ->
  object (turn_bottoms spread_pages sw sh h0 js h) a = object h a.
Proof.
  induction js as [| j js IH]; intros h Hne; [done |].
  rewrite turn_bottoms_cons, IH.
  - apply object_insert_ne. apply Hne. left.
  - intros j' Hj'. apply Hne. by right.
Qed.

Lemma turn_bottoms_bottom h0 js : forall j h,
  j ∈ js -> (bottom_of spread_pages j < length h)%nat ->
  object (turn_bottoms spread_pages sw sh h0 js h) (bottom_of spread_pages j)
  = turned sw sh (object h0 (bottom_of spread_pages j)).
Proof.
  induction js as [| j' js IH]; intros j h Hj Hlen.
  - by apply elem_of_nil in Hj.
  - rewrite turn_bottoms_cons.
    destruct (decide (Exists (fun k => bottom_of spread_pages k = bottom_of spread_pages j) js))
      as [Hex | Hnex].
    + apply Exists_exists in Hex as (k & Hk & Hkb).
      rewrite <- Hkb. apply IH; [done |].
      rewrite length_insert. by rewrite Hkb.
    + apply elem_of_cons in Hj as [-> | Hin].
      * rewrite turn_bottoms_other.
        -- by apply object_insert_eq.
        -- intros k Hk Hkb. apply Hnex. apply Exists_exists. by exists k.
      * exfalso. apply Hnex. apply Exists_exists. by exists j.
Qed.

Lemma sheet_step_fold h0 js :
  NoDup js -> separate spread_pages js ->
  Forall (fun j => 0 <= j < num_spreads) js ->
  Forall (fun a => (a < length h0)%nat) spread_pages ->
  forall w s hb ext,
    heap s = hb ++ ext -> length hb = length h0 ->
    (forall j, j ∈ js ->
       object hb (top_of spread_pages j) = object h0 (top_of spread_pages j) /\
       object hb (bottom_of spread_pages j) = object h0 (bottom_of spread_pages j)) ->
    foldl (flip (sheet_step args spread_pages fw fh sw sh)) (w, s) js
    = (w ++ (sheet_object spread_pages fw fh sw sh h0 <$> js),
       sheets_built args spread_pages fw fh sw sh h0 js hb ext s).
Proof.
  intros Hnodup Hsep Hjs Hvalid.
  induction js as [| x xs IH]; intros w s hb ext Hs Hlen Hsame.
  - simpl. unfold sheets_built. simpl. rewrite !app_nil_r, <- Hs. by destruct s.
  - apply NoDup_cons in Hnodup as [Hx Hnodup].
    apply Forall_cons in Hjs as [Hxr Hjs].
    assert (Htv : (top_of spread_pages x < length hb)%nat)
      by (rewrite Hlen; apply item_valid; [done | fold num_spreads; lia]).
    assert (Hbv : (bottom_of spread_pages x < length hb)%nat)
      by (rewrite Hlen; apply item_valid; [done | fold num_spreads; lia]).
    destruct (Hsame x) as [Htop Hbot]; [left |].
    assert (Hobj : sheet_object spread_pages fw fh sw sh (heap s) x
                   = sheet_object spread_pages fw fh sw sh h0 x).
    { unfold sheet_object. rewrite Hs, !object_app_l by done. by rewrite Htop, Hbot. }
    simpl. unfold sheet_step at 2. simpl. rewrite Hobj.
    set (b := bottom_of spread_pages x) in *.
    assert (Hheap : <[b := turned sw sh (object (heap s) b)]> (heap s)
                      ++ [sheet_object spread_pages fw fh sw sh h0 x]
                    = <[b := turned sw sh (object h0 b)]> hb
                      ++ (ext ++ [sheet_object spread_pages fw fh sw sh h0 x])).
    { rewrite Hs, object_app_l, Hbot by done.
      rewrite insert_app_l by done. by rewrite <- (assoc_L (++)). }
    erewrite IH; [| done | | done | exact Hheap | by rewrite length_insert |].
    + unfold sheets_built. rewrite turn_bottoms_cons. simpl.
      rewrite !length_app, length_insert. simpl.
      rewrite Nat.add_1_r, <- !(assoc_L (++)). reflexivity.
    + intros j j' Hj Hj'. apply Hsep; by right.
    + intros j Hj.
      assert (Hne : x <> j) by (intros ->; done).
      destruct (Hsep x j) as [Ht Hb]; [left | by right | done |].
      destruct (Hsame j) as [Htj Hbj]; [by right |].
      by rewrite !object_insert_ne.
Qed.

Lemma sheet_loop_run js w s :
  NoDup js -> separate spread_pages js ->
  Forall (fun j => 0 <= j < num_spreads) js ->
  Forall (fun a => (a < length (heap s))%nat) spread_pages ->
  for_loop js (sheet_body args spread_pages num_spreads fw fh sw sh) w s
  = Return (w ++ (sheet_object spread_pages fw fh sw sh (heap s) <$> js))
           (sheets_built args spread_pages fw fh sw sh (heap s) js (heap s) [] s).
Proof.
  intros Hnodup Hsep Hjs Hvalid.
  destruct (for_loop_fold (sheet_body args spread_pages num_spreads fw fh sw sh)
              (sheet_step args spread_pages fw fh sw sh)
              (fun p => (length (heap s) <= length (heap p.2))%nat) js)
    with (p := (w, s)) as [Hrun _].
  - intros x [w' s'] Hx Hlen. simpl in Hlen. split.
    + apply sheet_body_run.
      * rewrite Forall_forall in Hjs. by apply Hjs.
      * eapply Forall_impl; [exact Hvalid |]. simpl. intros. lia.
    + simpl. rewrite length_app, length_insert. lia.
  - simpl. lia.
  - simpl in Hrun. rewrite Hrun.
    by rewrite (sheet_step_fold (heap s) js Hnodup Hsep Hjs Hvalid w s (heap s) [])
      by (by rewrite ?app_nil_r).
Qed.

Lemma item_inj i k :
  NoDup spread_pages -> 0 <= i < num_spreads -> 0 <= k < num_spreads ->
  item spread_pages i = item spread_pages k -> i = k.
Proof.
  intros Hnodup Hi Hk Heq.
  pose proof (getitem_item spread_pages i Hi) as Hgi.
  pose proof (getitem_item spread_pages k Hk) as Hgk.
  rewrite getitem_nonneg in Hgi, Hgk by lia. rewrite Heq in Hgi.
  pose proof (NoDup_lookup _ _ _ _ Hnodup Hgi Hgk). lia.
Qed.

Lemma separate_range n :
  NoDup spread_pages -> 2 * n <= num_spreads -> separate spread_pages (range 0 n).
Proof.
  intros Hnodup Hn j j' Hj Hj' Hne.
  apply elem_of_range in Hj, Hj'. unfold bottom_of, top_of.
  split; intros Heq; apply item_inj in Heq; done || lia.
Qed.

Lemma NoDup_range lo hi : NoDup (range lo hi).
Proof.
  unfold range. apply NoDup_fmap_2; [| apply NoDup_seq].
  intros a b Hab. lia.
Qed.

Lemma sheet_phase_run n s :
  NoDup spread_pages -> 2 * n <= num_spreads ->
  Forall (fun a => (a < length (heap s))%nat) spread_pages ->
  sheet_phase args spread_pages num_spreads n fw fh sw sh s
  = Return (sheet_object spread_pages fw fh sw sh (heap s) <$> range 0 n)
           (sheets_built args spread_pages fw fh sw sh (heap s) (range 0 n) (heap s) []
              (say (if v args || vv args then [MsgPhase2] else []) s)).
Proof.
  intros Hnodup Hn Hvalid. unfold sheet_phase.
  rewrite (bind_run _ _ _ _ _ (status_run _ _ _)).
  rewrite sheet_loop_run; [done | apply NoDup_range | by apply separate_range | | done].
  apply Forall_forall. intros j Hj. apply elem_of_range in Hj. lia.
Qed.

End Sheets.

(** ** The two builders in sequence *)

Section Builders.
Variable pages : list addr.
Variable h : list PageObject.
Variables W H : Q.

Hypothesis valid : Forall (fun a => (a < length h)%nat) pages.

Lemma len_spread_list : len (spread_list pages h) = len pages / 2.
Proof.
  unfold spread_list, len at 1. rewrite length_seq.
  pose proof (len_nonneg pages). lia.
Qed.

Lemma spread_list_valid :
  Forall (fun a => (a < length (spread_heap pages h W H))%nat) (spread_list pages h).
Proof.
  unfold spread_heap. rewrite length_app, length_fmap.
  unfold spread_indices. rewrite range_length.
  apply Forall_seq. intros. lia.
Qed.

Lemma spread_builder_run args s :
  heap s = h ->
  spread_phase args pages (len pages) (len pages / 2) W (H / 2) s
  = Return (spread_list pages h) (with_spreads pages h W H args s).
Proof.
  intros Hs. rewrite spread_phase_run by (by rewrite Hs).
  rewrite Hs. f_equal.
  unfold spreads_built, with_spreads, say. cbn [heap calls stderr].
  rewrite Hs. f_equal.
  unfold spread_phase_messages. by rewrite (assoc_L (++)).
Qed.

Lemma sheet_builder_run args s :
  sheet_phase args (spread_list pages h) (len pages / 2) (len pages / 4) W H W (H / 2)
    (with_spreads pages h W H args s)
  = Return (final_sheets pages h W H) (with_sheets pages h W H args s).
Proof.
  rewrite <- len_spread_list.
  rewrite sheet_phase_run;
    [| apply NoDup_seq | rewrite len_spread_list; lia | apply spread_list_valid].
  f_equal.
  unfold sheets_built, with_sheets, with_spreads, say. cbn [heap calls stderr].
  f_equal.
  - rewrite !(assoc_L (++)). reflexivity.
  - unfold sheet_phase_messages. rewrite !(assoc_L (++)). reflexivity.
Qed.

End Builders.

(** ** The whole imposition *)

Section Imposition.
Variable reader_pages : list addr.
Variable h : list PageObject.

Hypothesis nonempty : 0 < len reader_pages.
Hypothesis valid : Forall (fun a => (a < length h)%nat) reader_pages.

Let deck : list addr := padded_deck reader_pages h.
Let W : Q := FINAL_WIDTH reader_pages h.
Let H : Q := FINAL_HEIGHT reader_pages h.

Lemma padded_deck_valid :
  Forall (fun a => (a < length (padded_heap reader_pages h))%nat) deck.
Proof.
  unfold padded_heap. rewrite length_app, length_replicate.
  unfold deck, padded_deck. apply Forall_app. split.
  - eapply Forall_impl; [exact valid |]. simpl. intros. lia.
  - apply Forall_seq. intros. lia.
Qed.

Lemma impose_run args s :
  heap s = h ->
  impose args reader_pages s
  = Return (imposed_sheets reader_pages h) (imposed reader_pages h args s).
Proof.
  intros Hs. unfold impose.
  assert (Hzero : 0 <= 0 < len reader_pages) by lia.
  rewrite (bind_run _ _ _ _ _ (index_run _ _ _ Hzero)).
  assert (Hfirst : (item reader_pages 0 < length (heap s))%nat)
    by (rewrite Hs; apply item_valid; [done | lia]).
  rewrite (bind_run _ _ _ _ _ (load_run _ _ Hfirst)).
  rewrite (bind_run _ _ _ _ _ (debug_run _ _ _)).
  rewrite (bind_run _ _ _ _ _ (debug_run _ _ _)).
  rewrite (bind_run _ _ _ _ _ (pad_pages_run _ _ _ _ _)).
  simpl. rewrite Hs.
  match goal with
  | |- context [with_blanks ?w ?h' ?n ?s0] =>
      replace (with_blanks w h' n s0) with (padded reader_pages h args s)
  end.
  2: { unfold padded, with_blanks, say, size_messages. cbn [heap calls stderr].
       rewrite Hs, !(assoc_L (++)). reflexivity. }
  transitivity
    ((spread_phase args deck (len deck) (len deck / 2) W (H / 2)
      ≫= fun spread_pages =>
           sheet_phase args spread_pages (len deck / 2) (len deck / 4) W H W (H / 2))
       (padded reader_pages h args s));
    [reflexivity |].
  rewrite (bind_run _ _ _ _ _
             (spread_builder_run deck (padded_heap reader_pages h) W H
                padded_deck_valid args (padded reader_pages h args s) eq_refl)).
  apply sheet_builder_run.
Qed.

End Imposition.

(** ** The driver *)

Lemma document_pages_valid doc :
  Forall (fun a => (a < length doc)%nat) (document_pages doc).
Proof. apply Forall_seq. intros. lia. Qed.

Lemma len_document_pages doc : len (document_pages doc) = len doc.
Proof. unfold len, document_pages. by rewrite length_seq. Qed.

Lemma len_padded_deck doc :
  len (padded_deck (document_pages doc) doc) = 8 * ceil_div8 (len doc).
Proof.
  unfold padded_deck. rewrite len_app, len_document_pages.
  unfold len at 2. rewrite length_seq. unfold blanks_for.
  pose proof (padding_needed_range (len doc)) as Hrange.
  pose proof (padding_needed_zero (len doc)) as Hzero.
  fold (target_nump (len doc)).
  destruct (Z.eqb_spec (len doc mod 8) 0) as [Hz | Hnz];
    unfold padding_needed in *; lia.
Qed.

Lemma length_padded_heap doc :
  length (padded_heap (document_pages doc) doc)
  = Z.to_nat (len (padded_deck (document_pages doc) doc)).
Proof.
  unfold padded_heap, padded_deck. rewrite len_app, length_app, length_replicate.
  unfold len. rewrite !length_seq. unfold document_pages. rewrite length_seq. lia.
Qed.

Lemma item_padded_deck doc k :
  0 <= k < len (padded_deck (document_pages doc) doc) ->
  item (padded_deck (document_pages doc) doc) k = Z.to_nat k.
Proof.
  intros Hk. unfold item. rewrite getitem_nonneg by lia.
  unfold padded_deck, document_pages in *.
  rewrite len_app in Hk. unfold len in Hk. rewrite !length_seq in Hk.
  destruct (decide (Z.to_nat k < length doc)%nat) as [Hlt | Hge].
  - rewrite lookup_app_l by (rewrite length_seq; lia).
    by rewrite lookup_seq_lt by lia.
  - rewrite lookup_app_r by (rewrite length_seq; lia).
    rewrite length_seq, lookup_seq_lt by (unfold len; rewrite length_seq; lia).
    simpl. lia.
Qed.

Lemma run_minibook_run env args f doc :
  infile args = Some f -> f <> "-"%string ->
  path_exists env f = true -> PdfReader env f = Some (Listed doc) -> doc <> [] ->
  exists ms,
    run_minibook env args initial_state
    = (if writable env args
       then Return (destination args, imposition doc)
       else Raise OSError)
        (say ms (imposed (document_pages doc) doc args (read_state args f doc))).
Proof.
  intros Hin Hdash Hex Hread Hdoc.
  assert (Hlen : 0 < len doc) by (destruct doc; [done | unfold len; simpl; lia]).
  unfold run_minibook. rewrite Hin.
  apply String.eqb_neq in Hdash. rewrite Hdash, Hex. simpl.
  rewrite (bind_run _ _ _ _ _ (status_run _ _ _)).
  rewrite Hread. unfold Reader_pages, open_reader at 1.
  unfold mbind at 1, M_bind at 1. cbn [heap calls stderr say initial_state].
  change (seq (length (@nil PageObject)) (length doc)) with (document_pages doc).
  rewrite len_document_pages.
  destruct (Z.eqb_spec (len doc) 0) as [? | _]; [lia |].
  change (mkState ([] ++ doc) [] ([] ++ (if v args || vv args then [MsgReading f] else [])))
    with (read_state args f doc).
  erewrite bind_run by
    (apply (impose_run (document_pages doc) doc);
     [by rewrite len_document_pages | apply document_pages_valid | reflexivity]).
  fold (imposition doc). fold (outfile_path args).
  unfold writable, destination.
  destruct (String.eqb (outfile_path args) "-") eqn:Hout.
  - erewrite (bind_run _ _ _ (Stdout, imposition doc))
      by (rewrite (bind_run _ _ _ _ _ (status_run _ _ _)); reflexivity).
    rewrite (bind_run _ _ _ _ _ (status_run _ _ _)).
    eexists (_ ++ _). unfold ret, mret, M_ret, say. cbn [heap calls stderr].
    by rewrite (assoc_L (++)).
  - assert (Hpath : match outfile args with
                    | Some _ => outfile_path args
                    | None => (splitext env f ++ ".minibook.pdf")%string
                    end = outfile_path args).
    { unfold outfile_path in *. by destruct (outfile args). }
    rewrite Hpath.
    destruct (open_wb env (outfile_path args)) eqn:Hw.
    + erewrite (bind_run _ _ _ (File (outfile_path args), imposition doc))
        by (rewrite (bind_run _ _ _ _ _ (status_run _ _ _)); reflexivity).
      rewrite (bind_run _ _ _ _ _ (status_run _ _ _)).
      eexists (_ ++ _). unfold ret, mret, M_ret, say. cbn [heap calls stderr].
      by rewrite (assoc_L (++)).
    + unfold mbind at 1, M_bind at 1.
      rewrite (bind_run _ _ _ _ _ (status_run _ _ _)).
      eexists (_ ++ _). unfold mbind, M_bind, write_stderr, raise, say.
      cbn [heap calls stderr]. by rewrite (assoc_L (++)).
Qed.

(** ** The spreads and the sheets, one by one *)

Lemma odd_mod2 i : negb (i mod 2 =? 0) = Z.odd i.
Proof.
  rewrite Zmod_odd. by destruct (Z.odd i).
Qed.

Section Pointwise.
Variable pages : list addr.
Variable h : list PageObject.
Variables W H : Q.

Lemma spread_list_item k :
  0 <= k < len pages / 2 ->
  getitem (spread_list pages h) k = Some (length h + Z.to_nat k)%nat
  /\ item (spread_list pages h) k = (length h + Z.to_nat k)%nat.
Proof.
  intros Hk.
  assert (Hget : getitem (spread_list pages h) k = Some (length h + Z.to_nat k)%nat).
  { rewrite getitem_nonneg by lia. unfold spread_list.
    apply lookup_seq_lt. lia. }
  split; [done |]. unfold item. by rewrite Hget.
Qed.

Lemma spread_heap_lookup k :
  0 <= k < len pages / 2 ->
  spread_heap pages h W H !! (length h + Z.to_nat k)%nat
  = Some (spread_object pages W (H / 2) h (k + 1)).
Proof.
  intros Hk. unfold spread_heap.
  rewrite lookup_app_r, Nat.add_sub' by lia.
  rewrite list_lookup_fmap. unfold spread_indices.
  rewrite range_lookup by lia. simpl. do 2 f_equal. lia.
Qed.

Lemma spread_heap_object k :
  0 <= k < len pages / 2 ->
  object (spread_heap pages h W H) (item (spread_list pages h) k)
  = spread_object pages W (H / 2) h (k + 1).
Proof.
  intros Hk. destruct (spread_list_item k Hk) as [_ ->].
  unfold object. by rewrite spread_heap_lookup.
Qed.

Lemma spread_heap_old a :
  (a < length h)%nat -> spread_heap pages h W H !! a = h !! a.
Proof. intros Ha. unfold spread_heap. by rewrite lookup_app_l. Qed.

Lemma spread_heap_length :
  length (spread_heap pages h W H) = (length h + Z.to_nat (len pages / 2))%nat.
Proof.
  unfold spread_heap, spread_indices.
  rewrite length_app, length_fmap, range_length. lia.
Qed.

Lemma final_sheets_lookup j :
  0 <= j < len pages / 4 ->
  final_sheets pages h W H !! Z.to_nat j
  = Some (sheet_object (spread_list pages h) W H W (H / 2) (spread_heap pages h W H) j).
Proof.
  intros Hj. unfold final_sheets, sheet_indices.
  rewrite list_lookup_fmap, range_lookup by lia.
  simpl. do 2 f_equal. lia.
Qed.

Lemma final_sheets_length : len (final_sheets pages h W H) = len pages / 4.
Proof.
  unfold final_sheets, sheet_indices, len at 1.
  rewrite length_fmap, range_length.
  pose proof (len_nonneg pages). lia.
Qed.

End Pointwise.

Section Frame.
Variable pages : list addr.
Variable h : list PageObject.
Variables W H : Q.

Let N : Z := len pages.

Lemma bottom_of_spread_list j :
  0 <= j < N / 2 ->
  bottom_of (spread_list pages h) j = (length h + Z.to_nat (N / 2 - j - 1))%nat.
Proof.
  intros Hj. unfold bottom_of. rewrite len_spread_list.
  apply spread_list_item. fold N. lia.
Qed.

Lemma lookup_eq_object (l1 l2 : list PageObject) a :
  (a < length l1)%nat -> length l1 = length l2 ->
  object l1 a = object l2 a -> l1 !! a = l2 !! a.
Proof.
  intros Ha Hlen Hobj.
  rewrite (lookup_object l1 a), (lookup_object l2 a) by lia. by rewrite Hobj.
Qed.

Lemma final_heap_unturned a :
  (a < length (spread_heap pages h W H))%nat ->
  (forall j, 0 <= j < N / 4 -> a <> (length h + Z.to_nat (N / 2 - j - 1))%nat) ->
  final_heap pages h W H !! a = spread_heap pages h W H !! a.
Proof.
  intros Ha Hne. unfold final_heap.
  rewrite lookup_app_l by (by rewrite turn_bottoms_length).
  apply lookup_eq_object.
  - by rewrite turn_bottoms_length.
  - apply turn_bottoms_length.
  - apply turn_bottoms_other. intros j Hj Hb.
    apply elem_of_range in Hj. fold N in Hj.
    rewrite bottom_of_spread_list in Hb by lia.
    by apply (Hne j).
Qed.

Lemma final_heap_bottom j :
  0 <= j < N / 4 ->
  final_heap pages h W H !! (length h + Z.to_nat (N / 2 - j - 1))%nat
  = Some (turned W (H / 2) (spread_object pages W (H / 2) h (N / 2 - j))).
Proof.
  intros Hj.
  assert (Hlt : (length h + Z.to_nat (N / 2 - j - 1)
                 < length (spread_heap pages h W H))%nat)
    by (rewrite spread_heap_length; fold N; lia).
  unfold final_heap.
  rewrite lookup_app_l by (by rewrite turn_bottoms_length).
  rewrite lookup_object by (by rewrite turn_bottoms_length).
  rewrite <- (bottom_of_spread_list j) by lia.
  rewrite turn_bottoms_bottom.
  - rewrite bottom_of_spread_list by lia.
    unfold object. rewrite spread_heap_lookup by (fold N; lia).
    simpl. do 3 f_equal. lia.
  - apply elem_of_range. fold N. lia.
  - by rewrite bottom_of_spread_list by lia.
Qed.

End Frame.

(** ** Pairing from both ends *)

(** The pages taken from the front, in order, are the first half of the deck. *)
Lemma fronts_take (l : list addr) m :
  0 <= m <= len l ->
  (fun i => item l (i - 1)) <$> range 1 (m + 1) = take (Z.to_nat m) l.
Proof.
  intros Hm. apply list_eq. intros k. rewrite list_lookup_fmap.
  destruct (decide (k < Z.to_nat m)%nat) as [Hk | Hk].
  - rewrite range_lookup, lookup_take_lt by lia. simpl.
    rewrite item_lookup by (unfold len in Hm; lia).
    do 2 f_equal. lia.
  - rewrite range_lookup_ge, lookup_take_ge by lia. done.
Qed.

(** The pages taken from the back are the second half of the deck, reversed. *)
Lemma backs_drop (l : list addr) m :
  len l = 2 * m ->
  (fun i => item l (len l - i)) <$> range 1 (m + 1) = reverse (drop (Z.to_nat m) l).
Proof.
  intros Hm. unfold len in Hm. apply list_eq. intros k. rewrite list_lookup_fmap.
  destruct (decide (k < Z.to_nat m)%nat) as [Hk | Hk].
  - rewrite range_lookup by lia. simpl.
    rewrite reverse_lookup by (rewrite length_drop; lia).
    rewrite lookup_drop, length_drop.
    rewrite item_lookup by lia.
    do 2 f_equal. unfold len. lia.
  - rewrite range_lookup_ge by lia.
    symmetry. apply lookup_ge_None. rewrite length_reverse, length_drop. lia.
Qed.

Lemma ends_Permutation (l : list addr) m :
  len l = 2 * m ->
  Permutation
    (concat ((fun i => [item l (i - 1); item l (len l - i)]) <$> range 1 (m + 1))) l.
Proof.
  intros Hm. pose proof (len_nonneg l).
  rewrite (pairs_Permutation (fun i => item l (i - 1)) (fun i => item l (len l - i))).
  rewrite fronts_take, backs_drop by lia.
  rewrite reverse_Permutation. by rewrite take_drop.
Qed.

Lemma merge_sources_spread_calls pages sw sh xs : forall canvases,
  length canvases = length xs ->
  merge_sources (concat (zip_with (spread_calls pages sw sh) canvases xs))
  = concat ((fun i => [left_of pages i; right_of pages i]) <$> xs).
Proof.
  induction xs as [| x xs IH]; intros [| c cs] Hlen; try done.
  simpl. f_equal. f_equal. apply IH. simpl in Hlen. lia.
Qed.

Lemma merge_sources_sheet_calls sp fw fh sw sh xs : forall canvases,
  length canvases = length xs ->
  merge_sources (concat (zip_with (sheet_calls sp fw fh sw sh) canvases xs))
  = concat ((fun j => [top_of sp j; bottom_of sp j]) <$> xs).
Proof.
  induction xs as [| x xs IH]; intros [| c cs] Hlen; try done.
  simpl. f_equal. f_equal. apply IH. simpl in Hlen. lia.
Qed.

Lemma added_pages_sheet_calls sp fw fh sw sh xs : forall canvases,
  length canvases = length xs ->
  added_pages (concat (zip_with (sheet_calls sp fw fh sw sh) canvases xs)) = canvases.
Proof.
  induction xs as [| x xs IH]; intros [| c cs] Hlen; try done.
  simpl. f_equal. apply IH. simpl in Hlen. lia.
Qed.

Lemma left_right_Permutation pages xs :
  Permutation (concat ((fun i => [left_of pages i; right_of pages i]) <$> xs))
              (concat ((fun i => [front_of pages i; back_of pages i]) <$> xs)).
Proof.
  induction xs as [| x xs IH]; [done |].
  simpl. unfold left_of at 1, right_of at 1.
  destruct (negb _); rewrite IH; [apply perm_swap | done].
Qed.

(** ** Dependence on the heap *)





(** * The claims *)

(** ** The scenarios of the specification, run *)

(** Eight pages: no padding, four spreads, two sheets. *)
Example scenario_eight_pages :
  exists s,
    impose quiet (seq 0 8) (loaded (letter_document 8))
    = Return (imposition (letter_document 8)) s /\
    length (heap s) = (8 + 0 + 4 + 2)%nat /\
    length (imposition (letter_document 8)) = 2%nat.
Proof. eexists. by vm_compute. Qed.

(** Five pages: three blank pages, four spreads, two sheets. *)
Example scenario_five_pages :
  exists s,
    impose quiet (seq 0 5) (loaded (letter_document 5))
    = Return (imposition (letter_document 5)) s /\
    length (heap s) = (5 + 3 + 4 + 2)%nat /\
    length (imposition (letter_document 5)) = 2%nat.
Proof. eexists. by vm_compute. Qed.

(** Sixteen pages: the left and right pages of the eight spreads, by their
    0-based positions in the deck. *)
Example scenario_sixteen_pages :
  (fun i => (left_of (seq 0 16) i, right_of (seq 0 16) i)) <$> range 1 9
  = [(15, 0); (1, 14); (13, 2); (3, 12); (11, 4); (5, 10); (9, 6); (7, 8)]%nat.
Proof. reflexivity. Qed.

(** ** The layout of a spread (C1) *)

Lemma scale_transform_apply tx ty x y :
  pt_eq (apply_on (translate scale_transform tx ty) (x, y))
        (x * (1 # 2) + tx, y * (1 # 2) + ty)%Q.
Proof. unfold pt_eq, apply_on, translate, scale_transform, scale. simpl. split; ring. Qed.

(** C1.  Over a deck of valid pages, for every spread index [i] from 1 to
    [N / 2], phase 1 returns and its spread [i - 1] is a canvas of size
    [(W, H / 2)] on which were drawn, in this order, the left page under the
    scaling by 0.5 moved to [(0, 0)] and the right page under the scaling by
    0.5 moved to [(W / 2, 0)], each clipped to its own box; with [front = deck[i - 1]] and
    [back = deck[N - i]], the left page is [back] and the right page [front]
    when [i] is odd, and the other way round when [i] is even. *)
Theorem spread_layout (args : Args) (pages : list addr) (W H : Q) (s : State) (i : Z) :
  Forall (fun a => (a < length (heap s))%nat) pages ->
  1 <= i <= len pages / 2 ->
  exists spreads s' front back canvas,
    spread_phase args pages (len pages) (len pages / 2) W (H / 2) s
    = Return spreads s' /\
    getitem pages (i - 1) = Some front /\
    getitem pages (len pages - i) = Some back /\
    getitem spreads (i - 1) = Some canvas /\
    heap s' !! canvas
    = Some (mkPage W (H / 2)
              (Merged
                 (Merged Empty
                    (Transformed (translate scale_transform 0 0)
                       (clipped (object (heap s) (if Z.odd i then back else front)))))
                 (Transformed (translate scale_transform (W / 2) 0)
                    (clipped (object (heap s) (if Z.odd i then front else back)))))) /\
    (forall x y, pt_eq (apply_on (translate scale_transform 0 0) (x, y))
                       (x * (1 # 2) + 0, y * (1 # 2) + 0)%Q) /\
    (forall x y, pt_eq (apply_on (translate scale_transform (W / 2) 0) (x, y))
                       (x * (1 # 2) + W / 2, y * (1 # 2) + 0)%Q).
Proof.
  intros Hvalid Hi.
  pose proof (len_nonneg pages) as Hn.
  exists (spread_list pages (heap s)), (with_spreads pages (heap s) W H args s),
    (item pages (i - 1)), (item pages (len pages - i)),
    (length (heap s) + Z.to_nat (i - 1))%nat.
  split; [by apply spread_builder_run |].
  split; [apply getitem_item; lia |].
  split; [apply getitem_item; lia |].
  split; [apply spread_list_item; lia |].
  split; [| split; intros; apply scale_transform_apply].
  cbn [heap with_spreads]. rewrite spread_heap_lookup by lia.
  replace (i - 1 + 1) with i by lia.
  unfold spread_object, left_of, right_of, front_of, back_of, merged_under,
    transform_L, transform_R.
  rewrite odd_mod2. by destruct (Z.odd i).
Qed.

Lemma spread_layout_witness :
  exists spreads s' front back canvas,
    spread_phase quiet (seq 0 8) (len (seq 0 8)) (len (seq 0 8) / 2) 612 (792 / 2)
      (loaded (letter_document 8))
    = Return spreads s' /\
    getitem (seq 0 8) (3 - 1) = Some front /\
    getitem (seq 0 8) (len (seq 0 8) - 3) = Some back /\
    getitem spreads (3 - 1) = Some canvas /\
    heap s' !! canvas
    = Some (mkPage 612 (792 / 2)
              (Merged
                 (Merged Empty
                    (Transformed (translate scale_transform 0 0)
                       (clipped (object (heap (loaded (letter_document 8)))
                                   (if Z.odd 3 then back else front)))))
                 (Transformed (translate scale_transform (612 / 2) 0)
                    (clipped (object (heap (loaded (letter_document 8)))
                                (if Z.odd 3 then front else back)))))) /\
    (forall x y, pt_eq (apply_on (translate scale_transform 0 0) (x, y))
                       (x * (1 # 2) + 0, y * (1 # 2) + 0)%Q) /\
    (forall x y, pt_eq (apply_on (translate scale_transform (612 / 2) 0) (x, y))
                       (x * (1 # 2) + 612 / 2, y * (1 # 2) + 0)%Q).
Proof.
  apply (spread_layout quiet (seq 0 8) 612 792 (loaded (letter_document 8)) 3).
  - repeat constructor; simpl; lia.
  - by vm_compute.
Defined.

(** ** The layout of a sheet (C2) *)

Lemma half_turn_then_translate tx ty x y :
  pt_eq (apply_on (translate identity tx ty) (apply_on (rotate_180 identity) (x, y)))
        (tx - x - sin_pi * y, ty - y + sin_pi * x)%Q.
Proof.
  unfold pt_eq, apply_on, translate, rotate_180, rotate_by, cos_pi.
  cbn [fst snd ta tb tc td te tf matrix_multiply identity]. split; ring.
Qed.

Lemma translate_apply tx ty x y :
  pt_eq (apply_on (translate identity tx ty) (x, y)) (x + tx, y + ty)%Q.
Proof. unfold pt_eq, apply_on, translate. simpl. split; ring. Qed.

(** C2, as stated, fails: on the first sheet of an 8-page Letter document the
    bottom spread is not moved by [(W / 2, H / 2)]. *)
Lemma bottom_translation_counterexample :
  exists sheets s' sheet,
    impose quiet (seq 0 8) (loaded (letter_document 8)) = Return sheets s' /\
    sheets !! 0%nat = Some sheet /\
    ~ bottom_as_specified 612 792 sheet.
Proof.
  do 3 eexists. split; [by vm_compute |]. split; [reflexivity |].
  intros (top & bottom & w & h & t & Hc & Ht).
  injection Hc as _ _ _ <- _.
  destruct Ht as (_ & _ & _ & _ & He & _).
  vm_compute in He. discriminate.
Qed.

(** C2, amended.  For every sheet index [j], phase 2 returns and its sheet [j]
    is a canvas of size [(W, H)] on which were drawn the top spread
    [spreads[j]], not rotated, moved to [(0, H / 2)], and then the bottom
    spread [spreads[S - 1 - j]], first turned by a half turn about its origin,
    then moved by [(W, H / 2)], and merged as it then is, clipped to its box
    [(W, H / 2)] as the top spread is.  A point [(x, y)] of the bottom spread
    lands at [(W - x, H / 2 - y)] up to the sine [sin_pi] the library computes
    for the half turn: at [(W - x - sin_pi * y, H / 2 - y + sin_pi * x)]. *)
Theorem sheet_layout (args : Args) (spread_pages : list addr) (W H : Q) (s : State)
    (n j : Z) :
  NoDup spread_pages ->
  Forall (fun a => (a < length (heap s))%nat) spread_pages ->
  2 * n <= len spread_pages ->
  0 <= j < n ->
  exists sheets s' top bottom,
    sheet_phase args spread_pages (len spread_pages) n W H W (H / 2) s
    = Return sheets s' /\
    getitem spread_pages j = Some top /\
    getitem spread_pages (len spread_pages - 1 - j) = Some bottom /\
    sheets !! Z.to_nat j
    = Some (mkPage W H
              (Merged
                 (Merged Empty
                    (Transformed (translate identity 0 (H / 2))
                       (clipped (object (heap s) top))))
                 (Clipped (width (object (heap s) bottom))
                    (height (object (heap s) bottom))
                    (Transformed (translate identity W (H / 2))
                       (Transformed (rotate_180 identity)
                          (contents (object (heap s) bottom))))))) /\
    (forall x y, pt_eq (apply_on (translate identity 0 (H / 2)) (x, y))
                       (x + 0, y + H / 2)%Q) /\
    (forall x y, pt_eq (apply_on (translate identity W (H / 2))
                          (apply_on (rotate_180 identity) (x, y)))
                       (W - x - sin_pi * y, H / 2 - y + sin_pi * x)%Q).
Proof.
  intros Hnodup Hvalid Hn Hj.
  eexists _, _, (item spread_pages j), (item spread_pages (len spread_pages - 1 - j)).
  split; [by apply sheet_phase_run |].
  split; [apply getitem_item; lia |].
  split; [apply getitem_item; lia |].
  split; [| split; intros; [apply translate_apply | apply half_turn_then_translate]].
  rewrite list_lookup_fmap, range_lookup by lia. simpl.
  replace (0 + Z.of_nat (Z.to_nat j)) with j by lia.
  unfold sheet_object, top_of, bottom_of, turned, transformed, merged_under. simpl.
  by replace (len spread_pages - j - 1) with (len spread_pages - 1 - j) by lia.
Qed.

Lemma sheet_layout_witness :
  exists sheets s' top bottom,
    sheet_phase quiet [0; 1; 2; 3]%nat (len [0; 1; 2; 3]%nat) 2 612 792 612 (792 / 2)
      (loaded (letter_document 4))
    = Return sheets s' /\
    getitem [0; 1; 2; 3]%nat 1 = Some top /\
    getitem [0; 1; 2; 3]%nat (len [0; 1; 2; 3]%nat - 1 - 1) = Some bottom /\
    sheets !! Z.to_nat 1
    = Some (mkPage 612 792
              (Merged
                 (Merged Empty
                    (Transformed (translate identity 0 (792 / 2))
                       (clipped (object (heap (loaded (letter_document 4))) top))))
                 (Clipped (width (object (heap (loaded (letter_document 4))) bottom))
                    (height (object (heap (loaded (letter_document 4))) bottom))
                    (Transformed (translate identity 612 (792 / 2))
                       (Transformed (rotate_180 identity)
                          (contents (object (heap (loaded (letter_document 4))) bottom))))))) /\
    (forall x y, pt_eq (apply_on (translate identity 0 (792 / 2)) (x, y))
                       (x + 0, y + 792 / 2)%Q) /\
    (forall x y, pt_eq (apply_on (translate identity 612 (792 / 2))
                          (apply_on (rotate_180 identity) (x, y)))
                       (612 - x - sin_pi * y, 792 / 2 - y + sin_pi * x)%Q).
Proof.
  apply (sheet_layout quiet [0; 1; 2; 3]%nat 612 792 (loaded (letter_document 4)) 2 1).
  - apply (NoDup_seq 0 4).
  - repeat constructor; simpl; lia.
  - by vm_compute.
  - by vm_compute.
Defined.

(** ** Padding (C3) *)

(** C3.  For a document of at least one page, [pad_pages] returns the
    original pages, in their order, followed by blank pages; the number of
    blank pages is 0 when the page count is a multiple of 8 and
    [8 * ceil(count / 8) - count] otherwise; that number is below 8 and makes
    the total a multiple of 8; the blank pages are new objects of the size
    asked for and nothing else changes in the heap. *)
Theorem pad_pages_plan (reader_pages : list addr) (w h : Q) (args : Args) (s : State) :
  1 <= len reader_pages ->
  exists blank_pages s',
    pad_pages reader_pages w h args s = Return (reader_pages ++ blank_pages) s' /\
    len blank_pages
    = (if len reader_pages mod 8 =? 0 then 0
       else 8 * Qceiling (inject_Z (len reader_pages) / 8) - len reader_pages) /\
    (len blank_pages + len reader_pages) mod 8 = 0 /\
    len blank_pages < 8 /\
    blank_pages = seq (length (heap s)) (length blank_pages) /\
    heap s' = heap s ++ replicate (length blank_pages) (mkPage w h Empty).
Proof.
  intros _.
  exists (seq (length (heap s)) (blanks_for (len reader_pages))). eexists.
  split; [apply pad_pages_run |].
  assert (Hlen : len (seq (length (heap s)) (blanks_for (len reader_pages)))
                 = if len reader_pages mod 8 =? 0 then 0
                   else padding_needed (len reader_pages)).
  { unfold len at 1, blanks_for. rewrite length_seq.
    pose proof (padding_needed_range (len reader_pages)).
    destruct (_ =? 0); lia. }
  rewrite Hlen, length_seq.
  split; [reflexivity |].
  pose proof (padding_needed_range (len reader_pages)).
  pose proof (padding_needed_multiple (len reader_pages)).
  repeat split.
  - destruct (Z.eqb_spec (len reader_pages mod 8) 0); [by rewrite Z.add_0_l | done].
  - destruct (_ =? 0); lia.
Qed.

Lemma pad_pages_plan_witness :
  1 <= len [0; 1; 2; 3; 4]%nat /\
  exists blank_pages s',
    pad_pages [0; 1; 2; 3; 4]%nat 612 792 quiet (loaded (letter_document 5))
    = Return ([0; 1; 2; 3; 4]%nat ++ blank_pages) s' /\
    len blank_pages
    = (if len [0; 1; 2; 3; 4]%nat mod 8 =? 0 then 0
       else 8 * Qceiling (inject_Z (len [0; 1; 2; 3; 4]%nat) / 8)
            - len [0; 1; 2; 3; 4]%nat) /\
    (len blank_pages + len [0; 1; 2; 3; 4]%nat) mod 8 = 0 /\
    len blank_pages < 8 /\
    blank_pages = seq (length (heap (loaded (letter_document 5)))) (length blank_pages) /\
    heap s' = heap (loaded (letter_document 5))
              ++ replicate (length blank_pages) (mkPage 612 792 Empty).
Proof.
  split; [by vm_compute |].
  apply (pad_pages_plan [0; 1; 2; 3; 4]%nat 612 792 quiet (loaded (letter_document 5))).
  by vm_compute.
Defined.

(** ** What the builders change and what they leave alone (C4) *)

(** C4, as stated, fails: in an 8-page Letter document the spread placed at
    the bottom of the first sheet is not the same after the sheet is built. *)
Lemma placement_counterexample :
  exists spreads s1 sheets s2 bottom,
    spread_phase quiet (seq 0 8) 8 4 612 (792 / 2) (loaded (letter_document 8))
    = Return spreads s1 /\
    sheet_phase quiet spreads 4 2 612 792 612 (792 / 2) s1 = Return sheets s2 /\
    getitem spreads (4 - 0 - 1) = Some bottom /\
    heap s2 !! bottom <> heap s1 !! bottom.
Proof.
  do 5 eexists. split; [by vm_compute |]. split; [by vm_compute |].
  split; [by vm_compute |].
  intros Heq. vm_compute in Heq. discriminate.
Qed.

(** C4, amended.  The two builders run in sequence leave every object that
    existed before them (the source pages and the blank pages) as it was, and
    phase 2 leaves alone every spread that it only uses as a top spread; the
    bottom spread of each sheet is changed in place: it keeps its size and
    holds its former content turned by a half turn and then moved by
    [(W, H / 2)]. *)
Theorem placement_frame (args : Args) (pages : list addr) (W H : Q) (s : State) :
  Forall (fun a => (a < length (heap s))%nat) pages ->
  exists spreads s1 sheets s2,
    spread_phase args pages (len pages) (len pages / 2) W (H / 2) s
    = Return spreads s1 /\
    sheet_phase args spreads (len pages / 2) (len pages / 4) W H W (H / 2) s1
    = Return sheets s2 /\
    (forall a, (a < length (heap s))%nat ->
       heap s1 !! a = heap s !! a /\ heap s2 !! a = heap s !! a) /\
    (forall k top, 0 <= k < len pages / 2 - len pages / 4 ->
       getitem spreads k = Some top -> heap s2 !! top = heap s1 !! top) /\
    (forall j bottom, 0 <= j < len pages / 4 ->
       getitem spreads (len pages / 2 - j - 1) = Some bottom ->
       exists p,
         heap s1 !! bottom = Some p /\
         heap s2 !! bottom
         = Some (mkPage (width p) (height p)
                   (Transformed (translate identity W (H / 2))
                      (Transformed (rotate_180 identity) (contents p))))).
Proof.
  intros Hvalid. pose proof (len_nonneg pages) as Hn.
  exists (spread_list pages (heap s)), (with_spreads pages (heap s) W H args s),
    (final_sheets pages (heap s) W H), (with_sheets pages (heap s) W H args s).
  split; [by apply spread_builder_run |].
  split; [by apply sheet_builder_run |].
  cbn [heap with_spreads with_sheets].
  split; [| split].
  - intros a Ha. rewrite final_heap_unturned.
    + by rewrite spread_heap_old.
    + rewrite spread_heap_length. lia.
    + intros j Hj. lia.
  - intros k top Hk Htop.
    destruct (spread_list_item pages (heap s) k) as [Hget _]; [lia |].
    rewrite Hget in Htop. injection Htop as <-.
    apply final_heap_unturned.
    + rewrite spread_heap_length. lia.
    + intros j Hj. lia.
  - intros j bottom Hj Hbottom.
    destruct (spread_list_item pages (heap s) (len pages / 2 - j - 1)) as [Hget _];
      [lia |].
    rewrite Hget in Hbottom. injection Hbottom as <-.
    exists (spread_object pages W (H / 2) (heap s) (len pages / 2 - j)).
    split.
    + rewrite spread_heap_lookup by lia. do 2 f_equal. lia.
    + by rewrite final_heap_bottom.
Qed.

Lemma placement_frame_witness :
  exists spreads s1 sheets s2,
    spread_phase verbose (seq 0 8) (len (seq 0 8)) (len (seq 0 8) / 2) 612 (792 / 2)
      (loaded (letter_document 8))
    = Return spreads s1 /\
    sheet_phase verbose spreads (len (seq 0 8) / 2) (len (seq 0 8) / 4)
      612 792 612 (792 / 2) s1
    = Return sheets s2 /\
    (forall a, (a < length (heap (loaded (letter_document 8))))%nat ->
       heap s1 !! a = heap (loaded (letter_document 8)) !! a /\
       heap s2 !! a = heap (loaded (letter_document 8)) !! a) /\
    (forall k top, 0 <= k < len (seq 0 8) / 2 - len (seq 0 8) / 4 ->
       getitem spreads k = Some top -> heap s2 !! top = heap s1 !! top) /\
    (forall j bottom, 0 <= j < len (seq 0 8) / 4 ->
       getitem spreads (len (seq 0 8) / 2 - j - 1) = Some bottom ->
       exists p,
         heap s1 !! bottom = Some p /\
         heap s2 !! bottom
         = Some (mkPage (width p) (height p)
                   (Transformed (translate identity 612 (792 / 2))
                      (Transformed (rotate_180 identity) (contents p))))).
Proof.
  apply (placement_frame verbose (seq 0 8) 612 792 (loaded (letter_document 8))).
  repeat constructor; simpl; lia.
Defined.

(** ** The empty document (C5) *)

(** C5, as stated, fails: on a document of no pages [pad_pages] does not fail,
    it returns the empty deck and creates nothing. *)
Lemma pad_pages_empty_counterexample :
  ~ fails (pad_pages [] 612 792 quiet initial_state) /\
  pad_pages [] 612 792 quiet initial_state = Return [] initial_state.
Proof. split; [intros Hf; exact Hf | reflexivity]. Qed.

(** C5, amended.  When the document read has no pages, it is [run_minibook]
    itself that reports the error and exits with status 1, before the page
    size is read and before [pad_pages] is called: the heap holds no page, no
    page operation was asked of the library, and nothing is returned for
    writing. *)
Theorem zero_pages_abort (env : Env) (args : Args) (f : string) :
  infile args = Some f -> f <> "-"%string ->
  path_exists env f = true -> PdfReader env f = Some (Listed []) ->
  run_minibook env args initial_state
  = Exit 1 (mkState [] [] ((if v args || vv args then [MsgReading f] else [])
                           ++ [ErrNoPages])).
Proof.
  intros Hin Hdash Hex Hread.
  unfold run_minibook. rewrite Hin.
  apply String.eqb_neq in Hdash. rewrite Hdash, Hex. simpl.
  rewrite (bind_run _ _ _ _ _ (status_run _ _ _)).
  rewrite Hread. reflexivity.
Qed.

Lemma zero_pages_abort_witness :
  run_minibook (env_with []) verbose initial_state
  = Exit 1 (mkState [] [] ((if v verbose || vv verbose
                            then [MsgReading "in.pdf"] else [])
                           ++ [ErrNoPages])).
Proof.
  apply (zero_pages_abort (env_with []) verbose "in.pdf"); by vm_compute.
Defined.

(** ** Every page in exactly one spread (C6) *)

(** C6.  Over a deck of valid pages whose length [N] is a multiple of 8,
    phase 1 returns, and the pages it draws onto its canvases are, spread by
    spread for [i] from 1 to [N / 2], the pages [front_i = deck[i - 1]] and
    [back_i = deck[N - i]] ([back_i] first when [i] is odd); taken together
    they are the deck up to order: every page is drawn exactly once. *)
Theorem page_pairing_coverage (args : Args) (pages : list addr) (W H : Q) (s : State) :
  Forall (fun a => (a < length (heap s))%nat) pages ->
  len pages mod 8 = 0 ->
  exists spreads s' placed,
    spread_phase args pages (len pages) (len pages / 2) W (H / 2) s
    = Return spreads s' /\
    calls s' = calls s ++ placed /\
    (forall i, 1 <= i <= len pages / 2 ->
       getitem pages (i - 1) = Some (front_of pages i) /\
       getitem pages (len pages - i) = Some (back_of pages i)) /\
    merge_sources placed
    = concat ((fun i => if Z.odd i then [back_of pages i; front_of pages i]
                        else [front_of pages i; back_of pages i])
                <$> range 1 (len pages / 2 + 1)) /\
    Permutation
      (concat ((fun i => [front_of pages i; back_of pages i])
                 <$> range 1 (len pages / 2 + 1)))
      pages /\
    Permutation (merge_sources placed) pages.
Proof.
  intros Hvalid Hmod. pose proof (len_nonneg pages) as Hn.
  assert (Hsources :
    merge_sources (spread_phase_calls pages (heap s) W H)
    = concat ((fun i => [left_of pages i; right_of pages i])
                <$> range 1 (len pages / 2 + 1))).
  { apply merge_sources_spread_calls. by rewrite length_seq. }
  assert (Hperm :
    Permutation (concat ((fun i => [front_of pages i; back_of pages i])
                           <$> range 1 (len pages / 2 + 1))) pages).
  { apply ends_Permutation. lia. }
  exists (spread_list pages (heap s)), (with_spreads pages (heap s) W H args s),
    (spread_phase_calls pages (heap s) W H).
  split; [by apply spread_builder_run |].
  split; [reflexivity |].
  split; [intros i Hi; split; apply getitem_item; lia |].
  split; [| split; [done |]].
  - rewrite Hsources. f_equal. apply list_fmap_ext. intros _ i _.
    unfold left_of, right_of. rewrite odd_mod2. by destruct (Z.odd i).
  - by rewrite Hsources, left_right_Permutation.
Qed.

Lemma page_pairing_coverage_witness :
  exists spreads s' placed,
    spread_phase quiet (seq 0 8) (len (seq 0 8)) (len (seq 0 8) / 2) 612 (792 / 2)
      (loaded (letter_document 8))
    = Return spreads s' /\
    calls s' = calls (loaded (letter_document 8)) ++ placed /\
    (forall i, 1 <= i <= len (seq 0 8) / 2 ->
       getitem (seq 0 8) (i - 1) = Some (front_of (seq 0 8) i) /\
       getitem (seq 0 8) (len (seq 0 8) - i) = Some (back_of (seq 0 8) i)) /\
    merge_sources placed
    = concat ((fun i => if Z.odd i then [back_of (seq 0 8) i; front_of (seq 0 8) i]
                        else [front_of (seq 0 8) i; back_of (seq 0 8) i])
                <$> range 1 (len (seq 0 8) / 2 + 1)) /\
    Permutation
      (concat ((fun i => [front_of (seq 0 8) i; back_of (seq 0 8) i])
                 <$> range 1 (len (seq 0 8) / 2 + 1)))
      (seq 0 8) /\
    Permutation (merge_sources placed) (seq 0 8).
Proof.
  apply (page_pairing_coverage quiet (seq 0 8) 612 792 (loaded (letter_document 8))).
  - repeat constructor; simpl; lia.
  - reflexivity.
Defined.

(** ** Every spread in exactly one sheet, sheets in order (C7) *)

(** C7.  Over a list of [S] distinct valid spreads, [S] even, phase 2 returns,
    and the spreads it draws onto its canvases are, sheet by sheet for [j]
    from 0 to [S / 2 - 1], [top_j = spreads[j]] and
    [bottom_j = spreads[S - 1 - j]]; taken together they are the spread list
    up to order: every spread goes into exactly one sheet.  The canvases are
    handed to the writer in the order of their creation, and page [j] of the
    writer is sheet [j]. *)
Theorem sheet_pairing_coverage (args : Args) (spread_pages : list addr) (W H : Q)
    (s : State) (n : Z) :
  NoDup spread_pages ->
  Forall (fun a => (a < length (heap s))%nat) spread_pages ->
  len spread_pages = 2 * n ->
  exists sheets s' placed,
    sheet_phase args spread_pages (len spread_pages) n W H W (H / 2) s
    = Return sheets s' /\
    calls s' = calls s ++ placed /\
    (forall j, 0 <= j < n ->
       getitem spread_pages j = Some (top_of spread_pages j) /\
       getitem spread_pages (len spread_pages - 1 - j)
       = Some (bottom_of spread_pages j)) /\
    merge_sources placed
    = concat ((fun j => [top_of spread_pages j; bottom_of spread_pages j])
                <$> range 0 n) /\
    Permutation (merge_sources placed) spread_pages /\
    added_pages placed = seq (length (heap s)) (Z.to_nat n) /\
    len sheets = n /\
    (forall j, 0 <= j < n ->
       sheets !! Z.to_nat j = heap s' !! (length (heap s) + Z.to_nat j)%nat /\
       sheets !! Z.to_nat j
       = Some (sheet_object spread_pages W H W (H / 2) (heap s) j)).
Proof.
  intros Hnodup Hvalid Hlen. pose proof (len_nonneg spread_pages) as Hn.
  set (placed := concat (zip_with (sheet_calls spread_pages W H W (H / 2))
                           (seq (length (heap s)) (length (range 0 n))) (range 0 n))).
  assert (Hsources :
    merge_sources placed
    = concat ((fun j => [top_of spread_pages j; bottom_of spread_pages j])
                <$> range 0 n)).
  { apply merge_sources_sheet_calls. by rewrite length_seq. }
  eexists _, _, placed.
  split; [apply sheet_phase_run; [done | lia | done] |].
  split; [reflexivity |].
  split; [| split; [done |]; split; [| split; [| split]]].
  - intros j Hj. unfold top_of, bottom_of.
    replace (len spread_pages - 1 - j) with (len spread_pages - j - 1) by lia.
    split; apply getitem_item; lia.
  - rewrite Hsources.
    etransitivity; [| apply (ends_Permutation spread_pages n Hlen)].
    rewrite range_succ, <- list_fmap_compose.
    erewrite list_fmap_ext; [reflexivity |].
    intros _ j _. simpl. unfold top_of, bottom_of.
    f_equal; [f_equal; lia |]. f_equal. f_equal. lia.
  - unfold placed. rewrite added_pages_sheet_calls by (by rewrite length_seq).
    by rewrite range_length, Z.sub_0_r.
  - unfold len. rewrite length_fmap, range_length. lia.
  - intros j Hj. cbn [heap sheets_built say].
    rewrite lookup_app_r by (rewrite turn_bottoms_length; lia).
    rewrite turn_bottoms_length, Nat.add_sub'. simpl.
    split; [reflexivity |].
    rewrite list_lookup_fmap, range_lookup by lia. simpl.
    do 2 f_equal. lia.
Qed.

Lemma sheet_pairing_coverage_witness :
  exists sheets s' placed,
    sheet_phase quiet [0; 1; 2; 3]%nat (len [0; 1; 2; 3]%nat) 2 612 792 612 (792 / 2)
      (loaded (letter_document 4))
    = Return sheets s' /\
    calls s' = calls (loaded (letter_document 4)) ++ placed /\
    (forall j, 0 <= j < 2 ->
       getitem [0; 1; 2; 3]%nat j = Some (top_of [0; 1; 2; 3]%nat j) /\
       getitem [0; 1; 2; 3]%nat (len [0; 1; 2; 3]%nat - 1 - j)
       = Some (bottom_of [0; 1; 2; 3]%nat j)) /\
    merge_sources placed
    = concat ((fun j => [top_of [0; 1; 2; 3]%nat j; bottom_of [0; 1; 2; 3]%nat j])
                <$> range 0 2) /\
    Permutation (merge_sources placed) [0; 1; 2; 3]%nat /\
    added_pages placed = seq (length (heap (loaded (letter_document 4)))) (Z.to_nat 2) /\
    len sheets = 2 /\
    (forall j, 0 <= j < 2 ->
       sheets !! Z.to_nat j
       = heap s' !! (length (heap (loaded (letter_document 4))) + Z.to_nat j)%nat /\
       sheets !! Z.to_nat j
       = Some (sheet_object [0; 1; 2; 3]%nat 612 792 612 (792 / 2)
                 (heap (loaded (letter_document 4))) j)).
Proof.
  apply (sheet_pairing_coverage quiet [0; 1; 2; 3]%nat 612 792
           (loaded (letter_document 4)) 2).
  - apply (NoDup_seq 0 4).
  - repeat constructor; simpl; lia.
  - reflexivity.
Defined.

(** ** How many spreads and sheets, and of what size (C8) *)

(** C8.  Over a padded deck of valid pages, of length [N] and for the page
    size [(W, H)], phase 1 returns exactly [N / 2] spreads, distinct objects
    of size [(W, H / 2)], and phase 2, run on them, returns exactly [N / 4]
    sheets of size [(W, H)]. *)
Theorem builder_counts (args : Args) (pages : list addr) (W H : Q) (s : State) :
  Forall (fun a => (a < length (heap s))%nat) pages ->
  len pages mod 8 = 0 ->
  exists spreads s1 sheets s2,
    spread_phase args pages (len pages) (len pages / 2) W (H / 2) s
    = Return spreads s1 /\
    sheet_phase args spreads (len pages / 2) (len pages / 4) W H W (H / 2) s1
    = Return sheets s2 /\
    len spreads = len pages / 2 /\
    NoDup spreads /\
    Forall (fun a => exists p, heap s1 !! a = Some p /\
                               width p = W /\ height p = (H / 2)%Q) spreads /\
    len sheets = len pages / 4 /\
    Forall (fun p => width p = W /\ height p = H) sheets.
Proof.
  intros Hvalid _. pose proof (len_nonneg pages) as Hn.
  exists (spread_list pages (heap s)), (with_spreads pages (heap s) W H args s),
    (final_sheets pages (heap s) W H), (with_sheets pages (heap s) W H args s).
  split; [by apply spread_builder_run |].
  split; [by apply sheet_builder_run |].
  split; [apply len_spread_list |].
  split; [apply NoDup_seq |].
  split; [| split; [apply final_sheets_length |]].
  - apply Forall_forall. intros a Ha. apply elem_of_seq in Ha.
    exists (spread_object pages W (H / 2) (heap s) (Z.of_nat (a - length (heap s)) + 1)).
    split; [| done]. cbn [heap with_spreads].
    rewrite <- spread_heap_lookup by lia. f_equal. lia.
  - apply Forall_forall. intros p Hp.
    apply list_elem_of_fmap in Hp as (j & -> & _). done.
Qed.

Lemma builder_counts_witness :
  exists spreads s1 sheets s2,
    spread_phase quiet (seq 0 16) (len (seq 0 16)) (len (seq 0 16) / 2) 612 (792 / 2)
      (loaded (letter_document 16))
    = Return spreads s1 /\
    sheet_phase quiet spreads (len (seq 0 16) / 2) (len (seq 0 16) / 4)
      612 792 612 (792 / 2) s1
    = Return sheets s2 /\
    len spreads = len (seq 0 16) / 2 /\
    NoDup spreads /\
    Forall (fun a => exists p, heap s1 !! a = Some p /\
                               width p = 612%Q /\ height p = (792 / 2)%Q) spreads /\
    len sheets = len (seq 0 16) / 4 /\
    Forall (fun p => width p = 612%Q /\ height p = 792%Q) sheets.
Proof.
  apply (builder_counts quiet (seq 0 16) 612 792 (loaded (letter_document 16))).
  - repeat constructor; simpl; lia.
  - reflexivity.
Defined.

(** ** Determinism (C9) *)

(** C9.  Two runs that read the same non-empty document and can write their
    output both return, and return the same sequence of sheets, whatever
    their flags, file names and output destinations are; they also end with
    the same heap and have asked the same page operations of the library.
    The sheets are a function of the document alone. *)
Theorem deterministic_imposition (env1 env2 : Env) (args1 args2 : Args)
    (doc : list PageObject) :
  reads env1 args1 doc -> reads env2 args2 doc -> doc <> [] ->
  writable env1 args1 = true -> writable env2 args2 = true ->
  exists s1 s2,
    run_minibook env1 args1 initial_state
    = Return (destination args1, imposition doc) s1 /\
    run_minibook env2 args2 initial_state
    = Return (destination args2, imposition doc) s2 /\
    heap s1 = heap s2 /\
    calls s1 = calls s2.
Proof.
  intros (f1 & Hin1 & Hd1 & Hex1 & Hr1) (f2 & Hin2 & Hd2 & Hex2 & Hr2) Hdoc Hw1 Hw2.
  destruct (run_minibook_run env1 args1 f1 doc) as [ms1 Hrun1]; try done.
  destruct (run_minibook_run env2 args2 f2 doc) as [ms2 Hrun2]; try done.
  rewrite Hw1 in Hrun1. rewrite Hw2 in Hrun2.
  eexists _, _. split; [exact Hrun1 |]. split; [exact Hrun2 |].
  split; reflexivity.
Qed.

Lemma deterministic_imposition_witness :
  exists s1 s2,
    run_minibook (env_with (letter_document 5)) quiet initial_state
    = Return (destination quiet, imposition (letter_document 5)) s1 /\
    run_minibook (env_with (letter_document 5)) verbose initial_state
    = Return (destination verbose, imposition (letter_document 5)) s2 /\
    heap s1 = heap s2 /\
    calls s1 = calls s2.
Proof.
  apply (deterministic_imposition (env_with (letter_document 5))
           (env_with (letter_document 5)) quiet verbose (letter_document 5)).
  - exists "in.pdf"%string. by vm_compute.
  - exists "in.pdf"%string. by vm_compute.
  - discriminate.
  - reflexivity.
  - reflexivity.
Defined.

(** ** Only the first page gives the geometry (C10) *)



(** The two sample documents are imposed by the same page operations into
    sheets of the same size, but not into the same sheets: the pages of other
    sizes are clipped to other boxes. *)
Example clipping_reaches_the_sheets :
  imposition (cover :: mixed_rest) <> imposition (cover :: plain_rest).
Proof. intros Heq. vm_compute in Heq. discriminate. Qed.

(** * Further properties of the program *)

(** ** The driver, message by message *)

Lemma say_say ms1 ms2 s : say ms2 (say ms1 s) = say (ms1 ++ ms2) s.
Proof. unfold say. simpl. by rewrite (assoc_L (++)). Qed.

(** The run of [run_minibook] on a readable document of at least one page,
    with everything it writes to the standard error stream. *)
Lemma run_minibook_full env args f doc :
  infile args = Some f -> f <> "-"%string ->
  path_exists env f = true -> PdfReader env f = Some (Listed doc) -> doc <> [] ->
  run_minibook env args initial_state
  = (if writable env args
     then Return (destination args, imposition doc)
     else Raise OSError)
      (say (output_messages env args)
         (imposed (document_pages doc) doc args (read_state args f doc))).
Proof.
  intros Hin Hdash Hex Hread Hdoc.
  assert (Hlen : 0 < len doc) by (destruct doc; [done | unfold len; simpl; lia]).
  unfold run_minibook. rewrite Hin.
  apply String.eqb_neq in Hdash. rewrite Hdash, Hex. simpl.
  rewrite (bind_run _ _ _ _ _ (status_run _ _ _)).
  rewrite Hread. unfold Reader_pages, open_reader at 1.
  unfold mbind at 1, M_bind at 1. cbn [heap calls stderr say initial_state].
  change (seq (length (@nil PageObject)) (length doc)) with (document_pages doc).
  rewrite len_document_pages.
  destruct (Z.eqb_spec (len doc) 0) as [? | _]; [lia |].
  change (mkState ([] ++ doc) [] ([] ++ (if v args || vv args then [MsgReading f] else [])))
    with (read_state args f doc).
  erewrite bind_run by
    (apply (impose_run (document_pages doc) doc);
     [by rewrite len_document_pages | apply document_pages_valid | reflexivity]).
  fold (imposition doc). fold (outfile_path args).
  unfold output_messages, writable, destination.
  destruct (String.eqb (outfile_path args) "-") eqn:Hout.
  - erewrite (bind_run _ _ _ (Stdout, imposition doc))
      by (rewrite (bind_run _ _ _ _ _ (status_run _ _ _)); reflexivity).
    rewrite (bind_run _ _ _ _ _ (status_run _ _ _)).
    by rewrite say_say.
  - assert (Hpath : match outfile args with
                    | Some _ => outfile_path args
                    | None => (splitext env f ++ ".minibook.pdf")%string
                    end = outfile_path args).
    { unfold outfile_path in *. by destruct (outfile args). }
    rewrite Hpath.
    destruct (open_wb env (outfile_path args)) eqn:Hw.
    + erewrite (bind_run _ _ _ (File (outfile_path args), imposition doc))
        by (rewrite (bind_run _ _ _ _ _ (status_run _ _ _)); reflexivity).
      rewrite (bind_run _ _ _ _ _ (status_run _ _ _)).
      by rewrite say_say.
    + unfold mbind at 1, M_bind at 1.
      rewrite (bind_run _ _ _ _ _ (status_run _ _ _)).
      unfold mbind, M_bind, write_stderr, raise.
      fold (say [ErrWriting] (say (if v args || vv args
                                   then [MsgWriting (outfile_path args)] else [])
                                (imposed (document_pages doc) doc args
                                   (read_state args f doc)))).
      by rewrite say_say.
Qed.

(** ** How a run can end *)

(** X1.  A run of [run_minibook] from the empty heap ends in one of four
    ways.  It returns, with the sheets of the document at the chosen
    destination, when the input is a named file that exists, whose pages can
    be listed and are at least one, and the output can be written.  It exits
    with status 1, before any page object is created or drawn on, when the
    input has no readable document of at least one page: no file is named,
    the file is missing, [PdfReader] raises, or there are no pages.  It
    raises the error of the library, which nothing catches, again before any
    page object is created or drawn on, when the reader is built but its
    pages cannot be listed.  It raises [OSError] when the output file cannot
    be written.  The indexing of the two loops never raises [IndexError].
    The page operations of the library are taken to succeed on the pages of
    a document that could be listed. *)
Theorem run_minibook_outcomes (env : Env) (args : Args) :
  match run_minibook env args initial_state with
  | Return (d, sheets) s =>
      exists doc, reads env args doc /\ doc <> [] /\ writable env args = true /\
                  d = destination args /\ sheets = imposition doc
  | Exit code s =>
      code = 1 /\ heap s = [] /\ calls s = [] /\
      (forall doc, reads env args doc -> doc = []) /\ ~ unlisted env args
  | Raise e s =>
      (e = PdfReadError /\ unlisted env args /\ heap s = [] /\ calls s = []) \/
      (e = OSError /\ writable env args = false /\
       exists doc, reads env args doc /\ doc <> [])
  end.
Proof.
  destruct (infile args) as [f |] eqn:Hin.
  2: { unfold run_minibook. rewrite Hin. simpl.
       repeat split; [intros doc (f & Hf & _) | intros (f & Hf & _)]; congruence. }
  destruct (String.eqb_spec f "-") as [-> | Hdash].
  { unfold run_minibook. rewrite Hin. simpl.
    repeat split; [intros doc (f & Hf & Hne & _) | intros (f & Hf & Hne & _)];
      congruence. }
  destruct (path_exists env f) eqn:Hex.
  2: { unfold run_minibook. rewrite Hin.
       apply String.eqb_neq in Hdash. rewrite Hdash, Hex. simpl.
       repeat split; [intros doc (f' & Hf & _ & Hex' & _) | intros (f' & Hf & _ & Hex' & _)];
         congruence. }
  destruct (PdfReader env f) as [[doc |] |] eqn:Hread.
  3: { unfold run_minibook. rewrite Hin.
       apply String.eqb_neq in Hdash. rewrite Hdash, Hex. simpl.
       rewrite (bind_run _ _ _ _ _ (status_run _ _ _)). rewrite Hread. simpl.
       repeat split; [intros doc (f' & Hf & _ & _ & Hread') | intros (f' & Hf & _ & _ & Hread')];
         congruence. }
  2: { unfold run_minibook. rewrite Hin.
       pose proof Hdash as Hdash'.
       apply String.eqb_neq in Hdash'. rewrite Hdash', Hex. simpl.
       rewrite (bind_run _ _ _ _ _ (status_run _ _ _)). rewrite Hread. simpl.
       left. repeat split. by exists f. }
  destruct doc as [| first rest].
  { unfold run_minibook. rewrite Hin.
    apply String.eqb_neq in Hdash. rewrite Hdash, Hex. simpl.
    rewrite (bind_run _ _ _ _ _ (status_run _ _ _)). rewrite Hread. simpl.
    repeat split; [intros doc (f' & Hf & _ & _ & Hread') | intros (f' & Hf & _ & _ & Hread')];
      congruence. }
  rewrite (run_minibook_full env args f (first :: rest)) by done.
  assert (reads env args (first :: rest)) by (by exists f).
  destruct (writable env args); [by exists (first :: rest) |].
  right. split; [done |]. split; [done |]. by exists (first :: rest).
Qed.

(** X2.  When the document can be read but the output file cannot be written,
    [run_minibook] raises [OSError] only after the whole imposition was built:
    the heap ends with the sheets of the document, and the last message on
    the standard error stream is the write error. *)
Theorem write_failure_is_late (env : Env) (args : Args) (doc : list PageObject) :
  reads env args doc -> doc <> [] -> writable env args = false ->
  exists s others,
    run_minibook env args initial_state = Raise OSError s /\
    heap s = others ++ imposition doc /\
    last (stderr s) = Some ErrWriting.
Proof.
  intros (f & Hin & Hdash & Hex & Hread) Hdoc Hw.
  eexists _, _. rewrite (run_minibook_full env args f doc) by done.
  rewrite Hw. split; [reflexivity |]. split; [reflexivity |].
  unfold output_messages. rewrite Hw. cbn [stderr say].
  rewrite !(assoc_L (++)). apply last_snoc.
Qed.

(** An environment in which no output file can be written. *)
Lemma write_failure_is_late_witness :
  exists s others,
    run_minibook (mkEnv (fun _ => true) (fun _ => Some (Listed (letter_document 5)))
                    (fun path => path) (fun _ => false))
      quiet initial_state
    = Raise OSError s /\
    heap s = others ++ imposition (letter_document 5) /\
    last (stderr s) = Some ErrWriting.
Proof.
  apply (write_failure_is_late
           (mkEnv (fun _ => true) (fun _ => Some (Listed (letter_document 5)))
              (fun path => path) (fun _ => false))
           quiet (letter_document 5)).
  - exists "in.pdf"%string. by vm_compute.
  - discriminate.
  - reflexivity.
Defined.

(** ** Where the output goes *)

(** X3.  The derived output name of [run_minibook] is never used: whatever
    [os.path.splitext] returns, the run is the same.  The output goes to
    [args.outfile], or to the standard output when that is missing, empty or
    ['-']. *)
Theorem splitext_is_unused (env : Env) (g : string -> string) (args : Args) (s : State) :
  run_minibook (with_splitext env g) args s = run_minibook env args s.
Proof.
  destruct args as [i [o |] v0 vv0]; unfold run_minibook, with_splitext; reflexivity.
Qed.

Lemma derived_name_is_a_file (basename : string) :
  String.eqb (basename ++ ".minibook.pdf") "" = false /\
  String.eqb (basename ++ ".minibook.pdf") "-" = false.
Proof.
  split; apply String.eqb_neq.
  - by destruct basename.
  - destruct basename as [| a [| b rest]]; simpl; congruence.
Qed.

(** X4.  Through [main], a run without an output name, on a named input file
    that can be read and has at least one page, writes the sheets of the
    document to the file named after the input, [<basename>.minibook.pdf],
    and never to the standard output. *)
Theorem main_derives_output_name (env : Env) (parsed : Args) (f : string)
    (doc : list PageObject) :
  infile parsed = Some f -> outfile parsed = None ->
  f <> ""%string -> f <> "-"%string ->
  path_exists env f = true -> PdfReader env f = Some (Listed doc) -> doc <> [] ->
  open_wb env (splitext env f ++ ".minibook.pdf") = true ->
  exists s,
    main env parsed initial_state
    = Return (File (splitext env f ++ ".minibook.pdf"), imposition doc) s.
Proof.
  intros Hin Hout Hempty Hdash Hex Hread Hdoc Hopen.
  destruct (derived_name_is_a_file (splitext env f)) as [Hne Hnd].
  apply String.eqb_neq in Hempty. pose proof Hdash as Hdash'.
  apply String.eqb_neq in Hdash'.
  unfold main, main_defaults. rewrite Hin, Hout, Hempty, Hdash'. simpl.
  eexists. rewrite (run_minibook_full env _ f doc) by done.
  unfold writable, destination, outfile_path. simpl.
  by rewrite Hne, Hnd, Hopen.
Qed.

Lemma main_derives_output_name_witness :
  exists s,
    main (env_with (letter_document 5)) verbose initial_state
    = Return (File (splitext (env_with (letter_document 5)) "in.pdf" ++ ".minibook.pdf"),
              imposition (letter_document 5)) s.
Proof.
  apply (main_derives_output_name (env_with (letter_document 5)) verbose "in.pdf"
           (letter_document 5)); by vm_compute.
Defined.

(** ** Padding twice *)

(** X5.  Padding is idempotent: [pad_pages] run on the deck it returned, for
    any page size and flags, returns the same deck, creates no page and asks
    no page operation of the library. *)
Theorem pad_pages_idempotent (reader_pages : list addr) (w h w' h' : Q)
    (args args' : Args) (s : State) :
  exists deck s1 s2,
    pad_pages reader_pages w h args s = Return deck s1 /\
    pad_pages deck w' h' args' s1 = Return deck s2 /\
    heap s2 = heap s1 /\ calls s2 = calls s1.
Proof.
  eexists _, _, _. split; [apply pad_pages_run |].
  rewrite pad_pages_run.
  assert (Hzero : blanks_for
                    (len (reader_pages
                          ++ seq (length (heap s)) (blanks_for (len reader_pages))))
                  = 0%nat).
  { rewrite len_app. unfold len at 2. rewrite length_seq. unfold blanks_for.
    pose proof (padding_needed_range (len reader_pages)) as Hrange.
    pose proof (padding_needed_multiple (len reader_pages)) as Hmult.
    destruct (Z.eqb_spec (len reader_pages mod 8) 0) as [Hz | Hnz].
    - rewrite Z.add_0_r. by rewrite Hz.
    - replace (len reader_pages + Z.of_nat (Z.to_nat (padding_needed (len reader_pages))))
        with (padding_needed (len reader_pages) + len reader_pages) by lia.
      by rewrite Hmult. }
  rewrite Hzero. simpl. rewrite app_nil_r.
  split; [reflexivity |].
  unfold with_blanks. cbn [heap calls replicate seq fmap list_fmap].
  by rewrite !app_nil_r.
Qed.

(** ** Sizes: sheets, objects, calls *)

Lemma length_concat_zip_with {A B} (f : A -> Z -> list B) (k : nat) xs : forall cs,
  length cs = length xs ->
  (forall c x, length (f c x) = k) ->
  length (concat (zip_with f cs xs)) = (k * length xs)%nat.
Proof.
  induction xs as [| x xs IH]; intros [| c cs] Hlen Hk; simpl in *; try lia.
  rewrite length_app, Hk, IH by (done || lia). lia.
Qed.

Lemma length_concat_fmap_singletons {B} (f : Z -> list B) xs :
  (forall x, length (f x) = 1%nat) -> length (concat (f <$> xs)) = length xs.
Proof.
  intros Hone. induction xs as [| x xs IH]; [done |].
  rewrite fmap_cons. cbn [concat]. by rewrite length_app, Hone, IH.
Qed.

Lemma concat_fmap_nils {B} (f : Z -> list B) xs :
  (forall x, f x = []) -> concat (f <$> xs) = [].
Proof.
  intros Hnil. induction xs as [| x xs IH]; [done |].
  rewrite fmap_cons. cbn [concat]. by rewrite Hnil, IH.
Qed.

Lemma calls_to_app m l1 l2 : calls_to m (l1 ++ l2) = calls_to m l1 + calls_to m l2.
Proof. unfold calls_to. by rewrite filter_app, len_app. Qed.

Lemma calls_to_concat_zip_with m (f : addr -> Z -> list Call) (k : Z) xs : forall cs,
  length cs = length xs ->
  (forall c x, calls_to m (f c x) = k) ->
  calls_to m (concat (zip_with f cs xs)) = k * len xs.
Proof.
  induction xs as [| x xs IH]; intros [| c cs] Hlen Hk; simpl in Hlen; try lia.
  - unfold calls_to, len. simpl. lia.
  - cbn [zip_with concat]. rewrite calls_to_app, Hk, IH by (done || lia).
    unfold len. simpl length. lia.
Qed.

Lemma calls_to_creates m w h (l : list addr) :
  calls_to m ((fun a => CreateBlank a w h) <$> l)
  = if decide (m = create_blank_page_method) then len l else 0.
Proof.
  induction l as [| a l IH].
  - by destruct (decide _).
  - rewrite fmap_cons. change (?x :: ?l') with ([x] ++ l') at 1.
    rewrite calls_to_app, IH.
    destruct m; unfold calls_to, len; simpl; lia.
Qed.

(** X6.  A successful run on a document of [n] pages returns exactly
    [2 * ceil(n / 8)] sheets and ends with [14 * ceil(n / 8)] page objects in
    the heap (the input pages, the blank pages, the spreads and the sheets).
    With [c = ceil(n / 8)], the program has called
    [PageObject.create_blank_page] [14 * c - n] times,
    [merge_transformed_page] [10 * c] times, [add_transformation] [4 * c]
    times, [merge_page] [2 * c] times and [add_page] [2 * c] times:
    [32 * c - n] page operations in all. *)
Theorem run_sizes (env : Env) (args : Args) (doc : list PageObject) :
  reads env args doc -> doc <> [] -> writable env args = true ->
  exists s,
    run_minibook env args initial_state
    = Return (destination args, imposition doc) s /\
    len (imposition doc) = 2 * ceil_div8 (len doc) /\
    len (heap s) = 14 * ceil_div8 (len doc) /\
    calls_to create_blank_page_method (calls s) = 14 * ceil_div8 (len doc) - len doc /\
    calls_to merge_transformed_page_method (calls s) = 10 * ceil_div8 (len doc) /\
    calls_to add_transformation_method (calls s) = 4 * ceil_div8 (len doc) /\
    calls_to merge_page_method (calls s) = 2 * ceil_div8 (len doc) /\
    calls_to add_page_method (calls s) = 2 * ceil_div8 (len doc) /\
    len (calls s) = 32 * ceil_div8 (len doc) - len doc.
Proof.
  intros (f & Hin & Hdash & Hex & Hread) Hdoc Hw.
  eexists. rewrite (run_minibook_full env args f doc) by done. rewrite Hw.
  split; [reflexivity |].
  pose proof (len_padded_deck doc) as HN.
  pose proof (length_padded_heap doc) as Hph.
  pose proof (len_nonneg doc) as Hn.
  set (rp := document_pages doc) in *.
  set (deck := padded_deck rp doc) in *.
  set (ph := padded_heap rp doc) in *.
  assert (Hc : 0 <= ceil_div8 (len doc)).
  { rewrite ceil_div8_floor. lia. }
  assert (Hb : Z.of_nat (blanks_for (len rp)) = 8 * ceil_div8 (len doc) - len doc).
  { unfold deck, padded_deck in HN. rewrite len_app in HN.
    unfold len in HN at 2. rewrite length_seq in HN.
    unfold rp in HN at 1. rewrite len_document_pages in HN. lia. }
  assert (Hcount : forall m,
    calls_to m (calls (say (output_messages env args)
                         (imposed rp doc args (read_state args f doc))))
    = (if decide (m = create_blank_page_method)
       then 8 * ceil_div8 (len doc) - len doc else 0)
      + calls_to m (spread_calls deck (FINAL_WIDTH rp doc) (FINAL_HEIGHT rp doc / 2)
                      0%nat 0)
        * (4 * ceil_div8 (len doc))
      + calls_to m (sheet_calls (spread_list deck ph) (FINAL_WIDTH rp doc)
                      (FINAL_HEIGHT rp doc) (FINAL_WIDTH rp doc)
                      (FINAL_HEIGHT rp doc / 2) 0%nat 0)
        * (2 * ceil_div8 (len doc))).
  { intros m. cbn [calls say imposed with_sheets padded read_state]. fold rp deck ph.
    rewrite app_nil_l, !calls_to_app.
    unfold padding_calls, spread_phase_calls, sheet_phase_calls.
    rewrite calls_to_creates.
    rewrite (calls_to_concat_zip_with m _
               (calls_to m (spread_calls deck (FINAL_WIDTH rp doc)
                              (FINAL_HEIGHT rp doc / 2) 0%nat 0)))
      by (rewrite ?length_seq; try done; intros; by destruct m).
    rewrite (calls_to_concat_zip_with m _
               (calls_to m (sheet_calls (spread_list deck ph) (FINAL_WIDTH rp doc)
                              (FINAL_HEIGHT rp doc) (FINAL_WIDTH rp doc)
                              (FINAL_HEIGHT rp doc / 2) 0%nat 0)))
      by (rewrite ?length_seq; try done; intros; by destruct m).
    unfold spread_indices, sheet_indices.
    assert (H1 : len (range 1 (len deck / 2 + 1)) = 4 * ceil_div8 (len doc))
      by (unfold len at 1; rewrite range_length; lia).
    assert (H2 : len (range 0 (len deck / 4)) = 2 * ceil_div8 (len doc))
      by (unfold len at 1; rewrite range_length; lia).
    assert (H3 : len (seq (length doc) (blanks_for (len rp)))
                 = 8 * ceil_div8 (len doc) - len doc)
      by (unfold len at 1; by rewrite length_seq).
    rewrite H1, H2, H3. destruct (decide _); ring. }
  split; [| split; [| repeat split]].
  - unfold imposition, imposed_sheets. fold rp deck ph.
    rewrite final_sheets_length. lia.
  - cbn [heap say imposed with_sheets]. fold rp deck ph.
    unfold final_heap, len. rewrite length_app, turn_bottoms_length.
    rewrite spread_heap_length.
    pose proof (final_sheets_length deck ph (FINAL_WIDTH rp doc) (FINAL_HEIGHT rp doc))
      as Hsheets.
    unfold len in *. lia.
  - rewrite Hcount. change (calls_to _ (spread_calls _ _ _ _ _)) with 1.
    change (calls_to _ (sheet_calls _ _ _ _ _ _ _)) with 1.
    destruct (decide _); [lia | done].
  - rewrite Hcount. change (calls_to _ (spread_calls _ _ _ _ _)) with 2.
    change (calls_to _ (sheet_calls _ _ _ _ _ _ _)) with 1.
    destruct (decide _); [done | lia].
  - rewrite Hcount. change (calls_to _ (spread_calls _ _ _ _ _)) with 0.
    change (calls_to _ (sheet_calls _ _ _ _ _ _ _)) with 2.
    destruct (decide _); [done | lia].
  - rewrite Hcount. change (calls_to _ (spread_calls _ _ _ _ _)) with 0.
    change (calls_to _ (sheet_calls _ _ _ _ _ _ _)) with 1.
    destruct (decide _); [done | lia].
  - rewrite Hcount. change (calls_to _ (spread_calls _ _ _ _ _)) with 0.
    change (calls_to _ (sheet_calls _ _ _ _ _ _ _)) with 1.
    destruct (decide _); [done | lia].
  - cbn [calls say imposed with_sheets padded read_state]. fold rp deck ph.
    unfold len at 1. rewrite app_nil_l, !length_app.
    unfold padding_calls, spread_phase_calls, sheet_phase_calls.
    rewrite length_fmap, length_seq.
    rewrite (length_concat_zip_with _ 3) by (by rewrite ?length_seq).
    rewrite (length_concat_zip_with _ 6) by (by rewrite ?length_seq).
    unfold spread_indices, sheet_indices. rewrite !range_length.
    unfold len in *. lia.
Qed.

Lemma run_sizes_witness :
  exists s,
    run_minibook (env_with (letter_document 5)) quiet initial_state
    = Return (destination quiet, imposition (letter_document 5)) s /\
    len (imposition (letter_document 5)) = 2 * ceil_div8 (len (letter_document 5)) /\
    len (heap s) = 14 * ceil_div8 (len (letter_document 5)) /\
    calls_to create_blank_page_method (calls s)
    = 14 * ceil_div8 (len (letter_document 5)) - len (letter_document 5) /\
    calls_to merge_transformed_page_method (calls s)
    = 10 * ceil_div8 (len (letter_document 5)) /\
    calls_to add_transformation_method (calls s)
    = 4 * ceil_div8 (len (letter_document 5)) /\
    calls_to merge_page_method (calls s) = 2 * ceil_div8 (len (letter_document 5)) /\
    calls_to add_page_method (calls s) = 2 * ceil_div8 (len (letter_document 5)) /\
    len (calls s) = 32 * ceil_div8 (len (letter_document 5)) - len (letter_document 5).
Proof.
  apply (run_sizes (env_with (letter_document 5)) quiet (letter_document 5)).
  - exists "in.pdf"%string. by vm_compute.
  - discriminate.
  - reflexivity.
Defined.

(** ** What the flags print *)

(** X7.  Without [-vv], a successful run writes no line per page, spread or
    sheet.  With neither flag it writes nothing at all; with [-v] alone it
    writes the reading line, the padding line when blank pages are added, the
    two phase lines, the output line and the completion line, in this
    order. *)
Theorem status_lines_only (env : Env) (args : Args) (f : string)
    (doc : list PageObject) :
  vv args = false ->
  infile args = Some f -> f <> "-"%string ->
  path_exists env f = true -> PdfReader env f = Some (Listed doc) -> doc <> [] ->
  writable env args = true ->
  exists s,
    run_minibook env args initial_state
    = Return (destination args, imposition doc) s /\
    stderr s
    = if v args then
        [MsgReading f]
        ++ (if len doc mod 8 =? 0 then []
            else [MsgPadding (len doc) (padding_needed (len doc)) (target_nump (len doc))])
        ++ [MsgPhase1; MsgPhase2;
            match destination args with
            | Stdout => MsgStdout
            | File path => MsgWriting path
            end;
            MsgComplete]
      else [].
Proof.
  intros Hvv Hin Hdash Hex Hread Hdoc Hw.
  eexists. rewrite (run_minibook_full env args f doc) by done. rewrite Hw.
  split; [reflexivity |].
  cbn [stderr say imposed with_sheets padded read_state].
  unfold output_messages, size_messages, pad_messages,
    spread_phase_messages, sheet_phase_messages.
  rewrite Hw, Hvv, len_document_pages, orb_false_r.
  rewrite (concat_fmap_nils (spread_messages args _))
    by (intros; unfold spread_messages; by rewrite Hvv).
  rewrite (concat_fmap_nils (sheet_messages args _))
    by (intros; unfold sheet_messages; by rewrite Hvv).
  destruct (v args), (len doc mod 8 =? 0); reflexivity.
Qed.

Lemma status_lines_only_witness :
  exists s,
    run_minibook (env_with (letter_document 5)) quiet initial_state
    = Return (destination quiet, imposition (letter_document 5)) s /\
    stderr s
    = if v quiet then
        [MsgReading "in.pdf"]
        ++ (if len (letter_document 5) mod 8 =? 0 then []
            else [MsgPadding (len (letter_document 5))
                    (padding_needed (len (letter_document 5)))
                    (target_nump (len (letter_document 5)))])
        ++ [MsgPhase1; MsgPhase2;
            match destination quiet with
            | Stdout => MsgStdout
            | File path => MsgWriting path
            end;
            MsgComplete]
      else [].
Proof.
  apply (status_lines_only (env_with (letter_document 5)) quiet "in.pdf"
           (letter_document 5)); by vm_compute.
Defined.

(** X8.  With [-vv], a successful run on a document of [n] pages writes
    [8 + 6 * ceil(n / 8)] lines: eight lines for the run and one line for
    each spread and each sheet. *)
Theorem debug_lines_count (env : Env) (args : Args) (doc : list PageObject) :
  vv args = true ->
  reads env args doc -> doc <> [] -> writable env args = true ->
  exists s,
    run_minibook env args initial_state
    = Return (destination args, imposition doc) s /\
    len (stderr s) = 8 + 6 * ceil_div8 (len doc).
Proof.
  intros Hvv (f & Hin & Hdash & Hex & Hread) Hdoc Hw.
  eexists. rewrite (run_minibook_full env args f doc) by done. rewrite Hw.
  split; [reflexivity |].
  pose proof (len_padded_deck doc) as HN.
  pose proof (len_nonneg doc) as Hn.
  assert (Hc : 0 <= ceil_div8 (len doc)) by (rewrite ceil_div8_floor; lia).
  cbn [stderr say imposed with_sheets padded read_state].
  unfold output_messages, size_messages, pad_messages,
    spread_phase_messages, sheet_phase_messages.
  rewrite Hw, Hvv, orb_true_r.
  unfold len at 1. rewrite !length_app.
  rewrite (length_concat_fmap_singletons (spread_messages args _))
    by (intros; unfold spread_messages; by rewrite Hvv).
  rewrite (length_concat_fmap_singletons (sheet_messages args _))
    by (intros; unfold sheet_messages; by rewrite Hvv).
  unfold spread_indices, sheet_indices. rewrite !range_length.
  set (deck := padded_deck (document_pages doc) doc) in *.
  destruct (_ =? 0); simpl length; lia.
Qed.

Lemma debug_lines_count_witness :
  exists s,
    run_minibook (env_with (letter_document 5)) verbose initial_state
    = Return (destination verbose, imposition (letter_document 5)) s /\
    len (stderr s) = 8 + 6 * ceil_div8 (len (letter_document 5)).
Proof.
  apply (debug_lines_count (env_with (letter_document 5)) verbose (letter_document 5)).
  - reflexivity.
  - exists "in.pdf"%string. by vm_compute.
  - discriminate.
  - reflexivity.
Defined.

(** ** Which pages are on which sheet *)

Lemma deck_page_object doc k :
  0 <= k < len (padded_deck (document_pages doc) doc) ->
  object (padded_heap (document_pages doc) doc)
    (item (padded_deck (document_pages doc) doc) k)
  = deck_page (FINAL_WIDTH (document_pages doc) doc)
      (FINAL_HEIGHT (document_pages doc) doc) doc k.
Proof.
  intros Hk. rewrite item_padded_deck by done.
  pose proof (length_padded_heap doc) as Hlen.
  unfold deck_page, object, padded_heap in *.
  rewrite length_app, length_replicate in Hlen.
  destruct (decide (Z.to_nat k < length doc)%nat) as [Hlt | Hge].
  - rewrite lookup_app_l by done.
    by destruct (lookup_lt_is_Some_2 doc _ Hlt) as [p ->].
  - rewrite lookup_app_r by lia.
    rewrite lookup_replicate_2 by lia.
    by rewrite (proj2 (lookup_ge_None doc (Z.to_nat k))) by lia.
Qed.

Lemma spread_object_tree pages W sh h i :
  contents (spread_object pages W sh h i)
  = spread_tree W (object h (left_of pages i)) (object h (right_of pages i)).
Proof. reflexivity. Qed.

Lemma sheet_object_tree sp W H h j :
  sheet_object sp W H W (H / 2) h j
  = mkPage W H
      (Merged
         (Merged Empty (Transformed (translate identity 0 (H / 2))
                          (clipped (object h (top_of sp j)))))
         (clipped (turned W (H / 2) (object h (bottom_of sp j))))).
Proof. reflexivity. Qed.

Lemma clipped_spread_object pages W sh h i :
  clipped (spread_object pages W sh h i)
  = Clipped W sh (spread_tree W (object h (left_of pages i)) (object h (right_of pages i))).
Proof. reflexivity. Qed.

Lemma clipped_turned_spread_object pages W H h i :
  clipped (turned W (H / 2) (spread_object pages W (H / 2) h i))
  = Clipped W (H / 2)
      (Transformed (translate identity W (H / 2))
         (Transformed (rotate_180 identity)
            (spread_tree W (object h (left_of pages i)) (object h (right_of pages i))))).
Proof. reflexivity. Qed.

(** Sheet [j] of the imposition of a document, page by page. *)
Lemma imposition_lookup (first : PageObject) (rest : list PageObject) (j : Z) :
  let doc := first :: rest in
  let N := 8 * ceil_div8 (len doc) in
  let W := width first in
  let H := height first in
  let page := deck_page W H doc in
  0 <= j < N / 4 ->
  imposition doc !! Z.to_nat j
  = Some (mkPage W H
            (sheet_tree W H
               (if Z.even j
                then spread_tree W (page (N - 1 - j)) (page j)
                else spread_tree W (page j) (page (N - 1 - j)))
               (if Z.even j
                then spread_tree W (page (N / 2 - 1 - j)) (page (N / 2 + j))
                else spread_tree W (page (N / 2 + j)) (page (N / 2 - 1 - j))))).
Proof.
  intros doc N W H page Hj.
  pose proof (len_padded_deck doc) as HN. fold N in HN.
  set (rp := document_pages doc) in *.
  set (deck := padded_deck rp doc) in *.
  set (ph := padded_heap rp doc) in *.
  assert (Hfirst : first_page_box rp doc = first).
  { unfold first_page_box, item. rewrite getitem_nonneg by lia. by unfold rp, doc. }
  assert (HW : FINAL_WIDTH rp doc = W) by (unfold FINAL_WIDTH; by rewrite Hfirst).
  assert (HH : FINAL_HEIGHT rp doc = H) by (unfold FINAL_HEIGHT; by rewrite Hfirst).
  unfold imposition, imposed_sheets. fold rp deck ph. rewrite HW, HH.
  rewrite final_sheets_lookup by lia. f_equal.
  rewrite sheet_object_tree. unfold top_of, bottom_of. rewrite len_spread_list.
  rewrite (spread_heap_object deck ph W H j) by lia.
  rewrite (spread_heap_object deck ph W H (len deck / 2 - j - 1)) by lia.
  rewrite clipped_spread_object, clipped_turned_spread_object.
  unfold left_of, right_of, front_of, back_of.
  assert (Hmod : len deck mod 8 = 0) by (rewrite HN; unfold N; lia).
  replace (j + 1 - 1) with j by lia.
  replace (len deck - (j + 1)) with (len deck - 1 - j) by lia.
  replace (len deck / 2 - j - 1 + 1 - 1) with (len deck / 2 - 1 - j) by lia.
  replace (len deck - (len deck / 2 - j - 1 + 1)) with (len deck / 2 + j) by lia.
  pose proof (Zmod_even j) as Heven.
  destruct (Z.even j);
    repeat match goal with
           | |- context [negb (?a mod 2 =? 0)] =>
               destruct (Z.eqb_spec (a mod 2) 0); [try lia | try lia]; cbn [negb]
           end;
    unfold deck, ph, rp; rewrite !deck_page_object by (fold rp; fold deck; lia);
    fold rp; fold deck; rewrite HW, HH; fold page; rewrite <- HN;
    reflexivity.
Qed.

(** X10.  The imposition scheme.  With [N = 8 * ceil(n / 8)] the length of the
    padded deck and [(W, H)] the size of the first page, sheet [j] of a
    successful run is a page of size [(W, H)] whose top spread holds the deck
    pages [N - 1 - j] and [j] and whose bottom spread, turned, holds the deck
    pages [N / 2 - 1 - j] and [N / 2 + j]; the first of each pair is on the
    left when [j] is even and on the right when [j] is odd.  A deck page
    beyond the document is a blank page of size [(W, H)].  Every page is
    clipped to its own box and every spread to the box [(W, H / 2)]. *)
Theorem imposition_scheme (env : Env) (args : Args) (first : PageObject)
    (rest : list PageObject) (j : Z) :
  let doc := first :: rest in
  let N := 8 * ceil_div8 (len doc) in
  let W := width first in
  let H := height first in
  let page := deck_page W H doc in
  reads env args doc -> writable env args = true ->
  0 <= j < N / 4 ->
  exists sheets s,
    run_minibook env args initial_state = Return (destination args, sheets) s /\
    sheets !! Z.to_nat j
    = Some (mkPage W H
              (sheet_tree W H
                 (if Z.even j
                  then spread_tree W (page (N - 1 - j)) (page j)
                  else spread_tree W (page j) (page (N - 1 - j)))
                 (if Z.even j
                  then spread_tree W (page (N / 2 - 1 - j)) (page (N / 2 + j))
                  else spread_tree W (page (N / 2 + j)) (page (N / 2 - 1 - j))))).
Proof.
  intros doc N W H page (f & Hin & Hdash & Hex & Hread) Hw Hj.
  exists (imposition doc). eexists.
  rewrite (run_minibook_full env args f doc) by done. rewrite Hw.
  split; [reflexivity |]. by apply imposition_lookup.
Qed.

Lemma imposition_scheme_witness :
  let doc := cover :: mixed_rest in
  let N := 8 * ceil_div8 (len doc) in
  let W := width cover in
  let H := height cover in
  let page := deck_page W H doc in
  exists sheets s,
    run_minibook (env_with (cover :: mixed_rest)) quiet initial_state
    = Return (destination quiet, sheets) s /\
    sheets !! Z.to_nat 1
    = Some (mkPage W H
              (sheet_tree W H
                 (if Z.even 1
                  then spread_tree W (page (N - 1 - 1)) (page 1)
                  else spread_tree W (page 1) (page (N - 1 - 1)))
                 (if Z.even 1
                  then spread_tree W (page (N / 2 - 1 - 1)) (page (N / 2 + 1))
                  else spread_tree W (page (N / 2 + 1)) (page (N / 2 - 1 - 1))))).
Proof.
  apply (imposition_scheme (env_with (cover :: mixed_rest)) quiet cover mixed_rest 1).
  - exists "in.pdf"%string. by vm_compute.
  - reflexivity.
  - by vm_compute.
Defined.

(** ** Where the pages land on a sheet *)

Lemma placements_sheet_tree W H a b c d :
  placements identity (sheet_tree W H (spread_tree W a b) (spread_tree W c d))
  = placements (on_top H transform_L) (contents a)
    ++ placements (on_top H (transform_R W)) (contents b)
    ++ placements (on_bottom W H transform_L) (contents c)
    ++ placements (on_bottom W H (transform_R W)) (contents d).
Proof. cbn [placements sheet_tree spread_tree clipped app]. by rewrite <- !(assoc_L (++)). Qed.

(** Where the four transformations put the point [(x, y)]. *)
Lemma on_top_apply H tx x y :
  pt_eq (apply_on (on_top H (translate scale_transform tx 0)) (x, y))
        (tx + x / 2, H / 2 + y / 2)%Q.
Proof.
  unfold pt_eq, apply_on, on_top, translate_top, translate, scale_transform, scale,
    matrix_multiply, identity.
  cbn [fst snd ta tb tc td te tf]. split; field.
Qed.

Lemma on_bottom_apply W H tx x y :
  pt_eq (apply_on (on_bottom W H (translate scale_transform tx 0)) (x, y))
        (W - (tx + x / 2) - sin_pi * (y / 2),
         H / 2 - y / 2 + sin_pi * (tx + x / 2))%Q.
Proof.
  unfold pt_eq, apply_on, on_bottom, translate_transform, rotate_transform,
    rotate_180, rotate_by, cos_pi, translate, scale_transform, scale,
    matrix_multiply, identity.
  cbn [fst snd ta tb tc td te tf]. split; field.
Qed.

(** X9.  In a successful run on a document whose first page is of size
    [(W, H)], sheet [j] draws its four deck pages under four transformations,
    read off the sheet itself, and these put the box [(0, 0, W, H)] of a page
    into the four quarters of the sheet.  The pages of the top spread land
    upright at half scale, the left one exactly in the upper left quarter and
    the right one exactly in the upper right quarter.  The pages of the
    bottom spread land upside down at half scale, the left one in the lower
    right quarter and the right one in the lower left quarter, within the
    margin [sin_pi * (W + H)] that the sine computed for the half turn
    leaves: about [1.7e-13] points on a Letter sheet. *)
Theorem pages_land_in_quarters (env : Env) (args : Args) (first : PageObject)
    (rest : list PageObject) (j : Z) :
  let doc := first :: rest in
  let N := 8 * ceil_div8 (len doc) in
  let W := width first in
  let H := height first in
  let page k := contents (deck_page W H doc k) in
  let margin := (sin_pi * (W + H))%Q in
  reads env args doc -> writable env args = true ->
  0 <= j < N / 4 -> (0 <= W)%Q -> (0 <= H)%Q ->
  exists sheets s sheet,
    run_minibook env args initial_state = Return (destination args, sheets) s /\
    sheets !! Z.to_nat j = Some sheet /\
    placements identity (contents sheet)
    = placements (on_top H transform_L)
        (page (if Z.even j then N - 1 - j else j))
      ++ placements (on_top H (transform_R W))
           (page (if Z.even j then j else N - 1 - j))
      ++ placements (on_bottom W H transform_L)
           (page (if Z.even j then N / 2 - 1 - j else N / 2 + j))
      ++ placements (on_bottom W H (transform_R W))
           (page (if Z.even j then N / 2 + j else N / 2 - 1 - j)) /\
    forall x y, (0 <= x <= W)%Q -> (0 <= y <= H)%Q ->
      (pt_eq (apply_on (on_top H transform_L) (x, y))
             (0 + x / 2, H / 2 + y / 2)%Q /\
       within (apply_on (on_top H transform_L) (x, y)) (0, H / 2)%Q (W / 2, H)%Q) /\
      (pt_eq (apply_on (on_top H (transform_R W)) (x, y))
             (W / 2 + x / 2, H / 2 + y / 2)%Q /\
       within (apply_on (on_top H (transform_R W)) (x, y)) (W / 2, H / 2)%Q (W, H)) /\
      (pt_eq (apply_on (on_bottom W H transform_L) (x, y))
             (W - (0 + x / 2) - sin_pi * (y / 2),
              H / 2 - y / 2 + sin_pi * (0 + x / 2))%Q /\
       near margin (apply_on (on_bottom W H transform_L) (x, y))
            (W / 2, 0)%Q (W, H / 2)%Q) /\
      (pt_eq (apply_on (on_bottom W H (transform_R W)) (x, y))
             (W - (W / 2 + x / 2) - sin_pi * (y / 2),
              H / 2 - y / 2 + sin_pi * (W / 2 + x / 2))%Q /\
       near margin (apply_on (on_bottom W H (transform_R W)) (x, y))
            (0, 0)%Q (W / 2, H / 2)%Q).
Proof.
  intros doc N W H page margin (f & Hin & Hdash & Hex & Hread) Hw Hj HW0 HH0.
  exists (imposition doc). eexists. eexists.
  rewrite (run_minibook_full env args f doc) by done. rewrite Hw.
  split; [reflexivity |].
  split; [by apply imposition_lookup |].
  split.
  { cbn [contents]. unfold page. fold W H.
    destruct (Z.even j); apply placements_sheet_tree. }
  intros x y Hx Hy.
  pose proof (on_top_apply H 0 x y) as [Ha1 Ha2].
  pose proof (on_top_apply H (W / 2) x y) as [Hb1 Hb2].
  pose proof (on_bottom_apply W H 0 x y) as [Hc1 Hc2].
  pose proof (on_bottom_apply W H (W / 2) x y) as [Hd1 Hd2].
  unfold transform_L, transform_R, pt_eq, within, near, margin in *.
  cbn [fst snd] in *.
  repeat split; try assumption.
  all: rewrite ?Ha1, ?Ha2, ?Hb1, ?Hb2, ?Hc1, ?Hc2, ?Hd1, ?Hd2.
  all: cbn [fst snd]; unfold Qdiv, sin_pi; change (/ 2)%Q with (1 # 2)%Q; lra.
Qed.

Lemma pages_land_in_quarters_witness :
  let doc := cover :: mixed_rest in
  let N := 8 * ceil_div8 (len doc) in
  let W := width cover in
  let H := height cover in
  let page k := contents (deck_page W H doc k) in
  let margin := (sin_pi * (W + H))%Q in
  exists sheets s sheet,
    run_minibook (env_with (cover :: mixed_rest)) quiet initial_state
    = Return (destination quiet, sheets) s /\
    sheets !! Z.to_nat 1 = Some sheet /\
    placements identity (contents sheet)
    = placements (on_top H transform_L)
        (page (if Z.even 1 then N - 1 - 1 else 1))
      ++ placements (on_top H (transform_R W))
           (page (if Z.even 1 then 1 else N - 1 - 1))
      ++ placements (on_bottom W H transform_L)
           (page (if Z.even 1 then N / 2 - 1 - 1 else N / 2 + 1))
      ++ placements (on_bottom W H (transform_R W))
           (page (if Z.even 1 then N / 2 + 1 else N / 2 - 1 - 1)) /\
    forall x y, (0 <= x <= W)%Q -> (0 <= y <= H)%Q ->
      (pt_eq (apply_on (on_top H transform_L) (x, y))
             (0 + x / 2, H / 2 + y / 2)%Q /\
       within (apply_on (on_top H transform_L) (x, y)) (0, H / 2)%Q (W / 2, H)%Q) /\
      (pt_eq (apply_on (on_top H (transform_R W)) (x, y))
             (W / 2 + x / 2, H / 2 + y / 2)%Q /\
       within (apply_on (on_top H (transform_R W)) (x, y)) (W / 2, H / 2)%Q (W, H)) /\
      (pt_eq (apply_on (on_bottom W H transform_L) (x, y))
             (W - (0 + x / 2) - sin_pi * (y / 2),
              H / 2 - y / 2 + sin_pi * (0 + x / 2))%Q /\
       near margin (apply_on (on_bottom W H transform_L) (x, y))
            (W / 2, 0)%Q (W, H / 2)%Q) /\
      (pt_eq (apply_on (on_bottom W H (transform_R W)) (x, y))
             (W - (W / 2 + x / 2) - sin_pi * (y / 2),
              H / 2 - y / 2 + sin_pi * (W / 2 + x / 2))%Q /\
       near margin (apply_on (on_bottom W H (transform_R W)) (x, y))
            (0, 0)%Q (W / 2, H / 2)%Q).
Proof.
  apply (pages_land_in_quarters (env_with (cover :: mixed_rest)) quiet cover mixed_rest 1).
  - exists "in.pdf"%string. by vm_compute.
  - reflexivity.
  - by vm_compute.
  - by vm_compute.
  - by vm_compute.
Defined.

(** ** Nothing lost, nothing drawn twice *)

Lemma bind_fmap_eq {A A' B} (f : A -> list B) (g : A' -> list B) l : forall l',
  f <$> l = g <$> l' -> l ≫= f = l' ≫= g.
Proof.
  induction l as [| x l IH]; intros [| y l'] Heq; try done.
  rewrite !fmap_cons in Heq. injection Heq as Hxy Heq.
  rewrite !bind_cons, Hxy. f_equal. by apply IH.
Qed.

Lemma concat_fmap_bind {A B} (h : Z -> list A) (g : A -> list B) xs :
  concat (h <$> xs) ≫= g = xs ≫= (fun x => h x ≫= g).
Proof.
  induction xs as [| x xs IH]; [done |].
  rewrite fmap_cons. cbn [concat]. by rewrite bind_app, bind_cons, IH.
Qed.

Lemma bind_nils {A B} (f : A -> list B) l :
  (forall x, x ∈ l -> f x = []) -> l ≫= f = [].
Proof.
  induction l as [| x l IH]; intros Hnil; [done |].
  rewrite bind_cons, Hnil, IH; [done | | left].
  intros y Hy. apply Hnil. by right.
Qed.

Lemma eq_Permutation {A} (l l' : list A) : l = l' -> Permutation l l'.
Proof. by intros ->. Qed.

Section Conservation.
Variable pages : list addr.
Variable h : list PageObject.
Variables W H : Q.

Hypothesis multiple : len pages mod 4 = 0.

Let g (a : addr) : list nat := sources (contents (object h a)).
Let G (i : Z) : list nat := sources (contents (spread_object pages W (H / 2) h i)).
Let G' (a : addr) : list nat :=
  sources (contents (object (spread_heap pages h W H) a)).

(** The streams drawn by the spreads are those drawn by the deck. *)
Lemma spreads_draw_the_deck :
  Permutation (range 1 (len pages / 2 + 1) ≫= G) (pages ≫= g).
Proof.
  transitivity
    (concat ((fun i => [left_of pages i; right_of pages i])
               <$> range 1 (len pages / 2 + 1)) ≫= g).
  - rewrite concat_fmap_bind. apply eq_Permutation, list_bind_ext; [| done].
    intros i. unfold G, g. rewrite spread_object_tree. simpl.
    by rewrite app_nil_r.
  - apply bind_Permutation.
    rewrite left_right_Permutation. apply ends_Permutation. lia.
Qed.

(** The streams drawn by the sheets are those drawn by the spreads. *)
Lemma sheets_draw_the_spreads :
  Permutation (drawn (final_sheets pages h W H)) (range 1 (len pages / 2 + 1) ≫= G).
Proof.
  pose proof (len_nonneg pages) as Hn.
  set (sl := spread_list pages h).
  assert (Hsl : len sl = 2 * (len pages / 4))
    by (unfold sl; rewrite len_spread_list; lia).
  transitivity (sl ≫= G').
  - etransitivity;
      [| apply bind_Permutation, (ends_Permutation sl (len pages / 4) Hsl)].
    rewrite concat_fmap_bind, range_succ, list_fmap_bind.
    unfold drawn, final_sheets, sheet_indices. rewrite list_fmap_bind.
    apply eq_Permutation, list_bind_ext; [| done].
    intros j. simpl. unfold top_of, bottom_of, G'. fold sl.
    rewrite app_nil_r.
    by replace (len sl - Z.succ j) with (len sl - j - 1) by lia;
       replace (Z.succ j - 1) with j by lia.
  - apply eq_Permutation, bind_fmap_eq, list_eq. intros k.
    rewrite !list_lookup_fmap. unfold sl, spread_list.
    destruct (decide (k < Z.to_nat (len pages / 2))%nat) as [Hk | Hk].
    + rewrite lookup_seq_lt, range_lookup by lia. simpl. f_equal.
      unfold G', G, object.
      rewrite <- (Nat2Z.id k) at 1. rewrite spread_heap_lookup by lia.
      by replace (Z.of_nat k + 1) with (1 + Z.of_nat k) by lia.
    + rewrite lookup_seq_ge, range_lookup_ge by lia. done.
Qed.

Lemma builders_draw_the_deck :
  Permutation (drawn (final_sheets pages h W H)) (pages ≫= g).
Proof. by rewrite sheets_draw_the_spreads, spreads_draw_the_deck. Qed.

End Conservation.

Lemma deck_draws_the_document doc :
  padded_deck (document_pages doc) doc
    ≫= (fun a => sources (contents (object (padded_heap (document_pages doc) doc) a)))
  = drawn doc.
Proof.
  unfold padded_deck, padded_heap, drawn. rewrite bind_app.
  rewrite (bind_nils _ (seq _ _)).
  - rewrite app_nil_r. apply bind_fmap_eq, list_eq. intros k.
    rewrite !list_lookup_fmap. unfold document_pages.
    destruct (decide (k < length doc)%nat) as [Hk | Hk].
    + rewrite lookup_seq_lt by done. simpl. unfold object.
      rewrite lookup_app_l by done.
      by destruct (lookup_lt_is_Some_2 doc k Hk) as [p ->].
    + rewrite lookup_seq_ge by lia.
      by rewrite (proj2 (lookup_ge_None doc k)) by lia.
  - intros a Ha. apply elem_of_seq in Ha. unfold object.
    rewrite lookup_app_r by lia. by rewrite lookup_replicate_2 by lia.
Qed.

(** X11.  Nothing is lost and nothing is drawn twice: the input streams drawn
    by the sheets of a successful run are, up to order, exactly the streams
    drawn by the pages of the document. *)
Theorem every_stream_once (env : Env) (args : Args) (doc : list PageObject) :
  reads env args doc -> doc <> [] -> writable env args = true ->
  exists sheets s,
    run_minibook env args initial_state = Return (destination args, sheets) s /\
    Permutation (drawn sheets) (drawn doc).
Proof.
  intros (f & Hin & Hdash & Hex & Hread) Hdoc Hw.
  exists (imposition doc). eexists.
  rewrite (run_minibook_full env args f doc) by done. rewrite Hw.
  split; [reflexivity |].
  rewrite <- (deck_draws_the_document doc).
  unfold imposition, imposed_sheets.
  apply builders_draw_the_deck.
  rewrite len_padded_deck. lia.
Qed.

Lemma every_stream_once_witness :
  exists sheets s,
    run_minibook (env_with (cover :: mixed_rest)) quiet initial_state
    = Return (destination quiet, sheets) s /\
    Permutation (drawn sheets) (drawn (cover :: mixed_rest)).
Proof.
  apply (every_stream_once (env_with (cover :: mixed_rest)) quiet (cover :: mixed_rest)).
  - exists "in.pdf"%string. by vm_compute.
  - discriminate.
  - reflexivity.
Defined.

(** X12.  The two builders, run in sequence on any deck of valid pages whose
    length is a multiple of 4, return, and the sheets draw, up to order,
    exactly the streams the pages of the deck draw: for losing and
    duplicating nothing a multiple of 4 is enough. *)
Theorem builders_conserve_streams (args : Args) (pages : list addr) (W H : Q)
    (s : State) :
  Forall (fun a => (a < length (heap s))%nat) pages ->
  len pages mod 4 = 0 ->
  exists spreads s1 sheets s2,
    spread_phase args pages (len pages) (len pages / 2) W (H / 2) s
    = Return spreads s1 /\
    sheet_phase args spreads (len pages / 2) (len pages / 4) W H W (H / 2) s1
    = Return sheets s2 /\
    Permutation (drawn sheets)
                (pages ≫= fun a => sources (contents (object (heap s) a))).
Proof.
  intros Hvalid Hmod.
  exists (spread_list pages (heap s)), (with_spreads pages (heap s) W H args s),
    (final_sheets pages (heap s) W H), (with_sheets pages (heap s) W H args s).
  split; [by apply spread_builder_run |].
  split; [by apply sheet_builder_run |].
  by apply builders_draw_the_deck.
Qed.

Lemma builders_conserve_streams_witness :
  exists spreads s1 sheets s2,
    spread_phase quiet (seq 0 4) (len (seq 0 4)) (len (seq 0 4) / 2) 612 (792 / 2)
      (loaded (letter_document 4))
    = Return spreads s1 /\
    sheet_phase quiet spreads (len (seq 0 4) / 2) (len (seq 0 4) / 4)
      612 792 612 (792 / 2) s1
    = Return sheets s2 /\
    Permutation (drawn sheets)
                (seq 0 4 ≫= fun a =>
                   sources (contents (object (heap (loaded (letter_document 4))) a))).
Proof.
  apply (builders_conserve_streams quiet (seq 0 4) 612 792 (loaded (letter_document 4))).
  - repeat constructor; simpl; lia.
  - reflexivity.
Defined.
